(** * GO-OCR: the job-dispatch layer of [main.go]

    A shallow embedding of the OCR upload service: the upload handler
    ([uploadHandler]), the worker loop ([ocrWorker]), the per-job routine
    ([processOCRRequest]) with its engine goroutine, the temporary-file
    writer ([writeImageFileOptimized]) and the extension check
    ([isValidImageType]).

    Go strings are byte sequences and are modelled by [string]; byte slices
    by [list Byte.byte]; [time.Duration] and [int64] by [Z] (nanoseconds).
    Errors are modelled by their message, [option string] standing for a
    possibly-nil [error]. *)

From Stdlib Require Import String Ascii List ZArith Lia Bool.
From Stdlib.Strings Require Import Byte.
From Stdlib Require Import DecimalString DecimalPos DecimalZ.
From stdpp Require Import base option list gmap strings.

Open Scope string_scope.
Open Scope Z_scope.

(** ** The Go runtime pieces the program calls *)

(** What the Go standard library decides outside of the ASCII range, and
    what depends on the operating system.  The program only calls these
    through [strings.ToLower], [strings.TrimSpace] and [filepath.Ext]. *)
Class GoPlatform := {
  (** [strings.Map(unicode.ToLower, s)], the slow path of [strings.ToLower] *)
  unicodeToLower : string -> string;
  (** [strings.TrimFunc(s, unicode.IsSpace)] *)
  unicodeTrim : string -> string;
  (** [strings.TrimRightFunc(s, unicode.IsSpace)] *)
  unicodeTrimRight : string -> string;
  (** [os.IsPathSeparator] *)
  IsPathSeparator : ascii -> bool
}.

Module GoStrings.

(** [utf8.RuneSelf = 0x80]: bytes below it are single-byte runes. *)
Definition RuneSelf : nat := 128.

Definition isASCIIbyte (c : ascii) : bool := (nat_of_ascii c <? RuneSelf)%nat.

Definition isUpperASCII (c : ascii) : bool :=
  ((nat_of_ascii "A" <=? nat_of_ascii c) && (nat_of_ascii c <=? nat_of_ascii "Z"))%nat.

(** [c += 'a' - 'A'] for ['A' <= c <= 'Z'] *)
Definition lowerByte (c : ascii) : ascii :=
  if isUpperASCII c then ascii_of_nat (nat_of_ascii c + 32) else c.

Fixpoint allb (p : ascii -> bool) (s : string) : bool :=
  match s with
  | EmptyString => true
  | String c r => p c && allb p r
  end.

Fixpoint existsb_str (p : ascii -> bool) (s : string) : bool :=
  match s with
  | EmptyString => false
  | String c r => p c || existsb_str p r
  end.

Fixpoint mapBytes (f : ascii -> ascii) (s : string) : string :=
  match s with
  | EmptyString => EmptyString
  | String c r => String (f c) (mapBytes f r)
  end.

(** [strings.ToLower]: ASCII-only strings are lowered bytewise (and returned
    unchanged when they hold no upper-case letter); any other string goes
    through [unicode.ToLower]. *)
Definition ToLower `{GoPlatform} (s : string) : string :=
  let isASCII := allb isASCIIbyte s in
  let hasUpper := existsb_str isUpperASCII s in
  if isASCII then
    if negb hasUpper then s else mapBytes lowerByte s
  else unicodeToLower s.

(** [asciiSpace]: tab, line feed, vertical tab, form feed, carriage return,
    space. *)
Definition asciiSpace (c : ascii) : bool :=
  match nat_of_ascii c with
  | 9%nat | 10%nat | 11%nat | 12%nat | 13%nat | 32%nat => true
  | _ => false
  end.

Inductive scan := Stop (rest : string) | Fallback (rest : string).

(** First loop of [strings.TrimSpace]: advance [start] over ASCII blanks;
    a byte [>= RuneSelf] hands [s[start:]] over to the Unicode path. *)
Fixpoint trimStart (s : string) : scan :=
  match s with
  | EmptyString => Stop EmptyString
  | String c r =>
      if negb (isASCIIbyte c) then Fallback s
      else if asciiSpace c then trimStart r
      else Stop s
  end.

(** Second loop of [strings.TrimSpace], on the bytes of [s[start:]] read
    from the end ([r] is that slice reversed): lower [stop] over ASCII
    blanks; a byte [>= RuneSelf] hands [s[start:stop]] over to the Unicode
    right trim. *)
Fixpoint trimStop (r : list ascii) : scan :=
  match r with
  | [] => Stop EmptyString
  | c :: r' =>
      if negb (isASCIIbyte c) then Fallback (string_of_list_ascii (rev r))
      else if asciiSpace c then trimStop r'
      else Stop (string_of_list_ascii (rev r))
  end.

Definition TrimSpace `{GoPlatform} (s : string) : string :=
  match trimStart s with
  | Fallback rest => unicodeTrim rest
  | Stop rest =>
      match trimStop (rev (list_ascii_of_string rest)) with
      | Fallback mid => unicodeTrimRight mid
      | Stop mid => mid
      end
  end.

(** The loop of [filepath.Ext]: [todo] holds [path[0..i]] read from the end,
    [suffix] is [path[i+1:]].  The loop runs while [i >= 0] and [path[i]] is
    not a separator, and returns [path[i:]] at the first dot. *)
Fixpoint extLoop `{GoPlatform} (todo : list ascii) (suffix : string) : string :=
  match todo with
  | [] => EmptyString
  | c :: todo' =>
      if IsPathSeparator c then EmptyString
      else if Ascii.eqb c "." then String c suffix
      else extLoop todo' (String c suffix)
  end.

Definition Ext `{GoPlatform} (path : string) : string :=
  extLoop (rev (list_ascii_of_string path)) EmptyString.

End GoStrings.

(** A platform for running the model on ASCII file names and texts under a
    Unix path convention: the Unicode paths are then never taken on
    ASCII-only input, and are filled in with their ASCII behaviour. *)
Definition asciiTrimLeft : string -> string :=
  fix go (s : string) : string :=
    match s with
    | EmptyString => EmptyString
    | String c r => if GoStrings.asciiSpace c then go r else s
    end.

Definition asciiTrimRight (s : string) : string :=
  string_of_list_ascii
    (rev (list_ascii_of_string
            (asciiTrimLeft (string_of_list_ascii (rev (list_ascii_of_string s)))))).

Definition unixASCII : GoPlatform := {|
  unicodeToLower := GoStrings.mapBytes GoStrings.lowerByte;
  unicodeTrim := fun s => asciiTrimRight (asciiTrimLeft s);
  unicodeTrimRight := asciiTrimRight;
  IsPathSeparator := fun c => Ascii.eqb c "/"
|}.

(** ** [isValidImageType] *)

Definition validExts : list string :=
  [".png"; ".jpg"; ".jpeg"; ".gif"; ".bmp"; ".tiff"].

(** [for _, validExt := range validExts { if ext == validExt { return true } }
    return false] *)
Fixpoint rangeValidExts (ext : string) (exts : list string) : bool :=
  match exts with
  | [] => false
  | validExt :: more => if String.eqb ext validExt then true else rangeValidExts ext more
  end.

Definition isValidImageType `{GoPlatform} (filename : string) : bool :=
  let ext := GoStrings.ToLower (GoStrings.Ext filename) in
  rangeValidExts ext validExts.

(** ** The operating system seen by one job *)

(** Go's [time.Duration] counts nanoseconds. *)
Definition Second : Z := 1000000000.

(** What the program asks of the operating system, in program order. *)
Inductive Syscall :=
| SysCreate (name : string)
| SysWrite (name : string) (data : list Byte.byte)
| SysRemove (name : string)
| SysLog (msg : string).

(** The decisions that belong to the operating system: whether [os.Create]
    and [os.Remove] fail on a name (with which message), and how many bytes
    the kernel takes from a [write] and with which error. *)
Record OS := {
  createFails : string -> option string;
  rawWrite : string -> list Byte.byte -> nat * option string;
  removeFails : string -> option string
}.

(** The part of the process state the job routine touches: the files, the
    list of system calls made so far, and [bufferPool] (a pooled buffer is a
    zero-length slice, described by its capacity). *)
Record World := {
  fs : gmap string (list Byte.byte);
  trace : list Syscall;
  bufferPool : list Z
}.

Definition M (A : Type) : Type := World -> A * World.

Definition ret {A : Type} (a : A) : M A := fun w => (a, w).

Definition bind {A B : Type} (m : M A) (k : A -> M B) : M B :=
  fun w => let (a, w') := m w in k a w'.

Notation "'do' x <- m ; k" := (bind m (fun x => k))
  (at level 10, x name, m at level 100, k at level 200).

Definition syscall (c : Syscall) : M unit :=
  fun w => (tt, {| fs := fs w; trace := (trace w ++ [c])%list; bufferPool := bufferPool w |}).

Definition setFile (name : string) (content : option (list Byte.byte)) : M unit :=
  fun w => (tt, {| fs := match content with
                         | Some bytes => <[name := bytes]> (fs w)
                         | None => delete name (fs w)
                         end;
                   trace := trace w; bufferPool := bufferPool w |}).

Definition readFile (name : string) : M (option (list Byte.byte)) :=
  fun w => (fs w !! name, w).

(** [os.Create(name)]: create or truncate; the error, if any. *)
Definition osCreate (o : OS) (name : string) : M (option string) :=
  do _ <- syscall (SysCreate name) ;
  match createFails o name with
  | Some e => ret (Some e)
  | None => do _ <- setFile name (Some []) ; ret None
  end.

Definition ErrShortWrite : string := "short write".

(** [File.Write(b)] on a file just created: the kernel takes the first
    [n] bytes; [n != len(b)] sets [io.ErrShortWrite], a kernel error
    overrides it (wrapped with the operation and the path). *)
Definition fileWrite (o : OS) (name : string) (b : list Byte.byte)
  : M (nat * option string) :=
  do _ <- syscall (SysWrite name b) ;
  let (n, e) := rawWrite o name b in
  let taken := take n b in
  do old <- readFile name ;
  do _ <- setFile name (Some (default [] old ++ taken)%list) ;
  let err := if (length taken =? length b)%nat then None else Some ErrShortWrite in
  let err := match e with
             | Some msg => Some ("write " ++ name ++ ": " ++ msg)
             | None => err
             end in
  ret (length taken, err).

(** [os.Remove(name)]: a missing file is an error; otherwise the operating
    system decides. *)
Definition osRemove (o : OS) (name : string) : M (option string) :=
  do _ <- syscall (SysRemove name) ;
  do present <- readFile name ;
  match present with
  | None => ret (Some ("remove " ++ name ++ ": no such file or directory"))
  | Some _ =>
      match removeFails o name with
      | Some e => ret (Some e)
      | None => do _ <- setFile name None ; ret None
      end
  end.

Definition logPrintf (msg : string) : M unit := syscall (SysLog msg).

(** [bufferPool.Get()]: a pooled buffer, or [New()] (capacity 1 MiB) when
    the pool is empty. *)
Definition poolGet : M Z :=
  fun w => match bufferPool w with
           | [] => (1024 * 1024, w)
           | cap :: rest => (cap, {| fs := fs w; trace := trace w; bufferPool := rest |})
           end.

(** [bufferPool.Put(buf[:0])] *)
Definition poolPut (cap : Z) : M unit :=
  fun w => (tt, {| fs := fs w; trace := trace w; bufferPool := cap :: bufferPool w |}).

(** ** [bytes.Buffer] *)

Record Buffer := { buf : list Byte.byte; off : nat }.

Definition emptyBuffer : Buffer := {| buf := []; off := 0 |}.

(** [Buffer.Write(p)]: append. *)
Definition bufferWrite (b : Buffer) (p : list Byte.byte) : Buffer :=
  {| buf := (buf b ++ p)%list; off := off b |}.

(** [Buffer.WriteTo(w)] with [w] the file [name]: hand the unread bytes
    to one [Write]; an error or a short count leaves the buffer as it is,
    success resets it.  ([File.Write] never reports more bytes than it was
    given, so the panic on [m > nBytes] cannot happen.)  Only the error is
    used by the caller. *)
Definition bufferWriteTo (o : OS) (b : Buffer) (name : string)
  : M (Buffer * option string) :=
  let unread := drop (off b) (buf b) in
  let nBytes := length unread in
  if (0 <? nBytes)%nat then
    do r <- fileWrite o name unread ;
    let (m, e) := (r : nat * option string) in
    let b' := {| buf := buf b; off := off b + m |} in
    match e with
    | Some msg => ret (b', Some msg)
    | None =>
        if negb (m =? nBytes)%nat then ret (b', Some ErrShortWrite)
        else ret (emptyBuffer, None)
    end
  else ret (emptyBuffer, None).

(** ** [writeImageFileOptimized] *)

(** The branch for [len(data) > 32*1024]. *)
Definition writeLarge (o : OS) (filename : string) (data : list Byte.byte)
  : M (option string) :=
  do cap <- poolGet ;
  let bufferedWriter := bufferWrite emptyBuffer data in
  do r <- bufferWriteTo o bufferedWriter filename ;
  do _ <- poolPut cap ;
  ret (snd r).

(** The [else] branch: [_, err = writer.Write(data)]. *)
Definition writeSmall (o : OS) (filename : string) (data : list Byte.byte)
  : M (option string) :=
  do r <- fileWrite o filename data ;
  ret (snd r).

Definition writeImageFileOptimized (o : OS) (filename : string)
  (data : list Byte.byte) : M (option string) :=
  do err <- osCreate o filename ;
  match err with
  | Some e => ret (Some e)
  | None =>
      if 32 * 1024 <? Z.of_nat (length data)
      then writeLarge o filename data
      else writeSmall o filename data
  end.

(** The plain write the optimized routine is compared with: create the
    file, write the data in one call. *)
Definition writePlain (o : OS) (filename : string) (data : list Byte.byte)
  : M (option string) :=
  do err <- osCreate o filename ;
  match err with
  | Some e => ret (Some e)
  | None => do r <- fileWrite o filename data ; ret (snd r)
  end.

(** ** Requests, responses and the engine handle *)

Record OCRResponse := { Text : string; Err : option string }.

(** A job; [ResponseCh] names the reply channel in the store of channels. *)
Record OCRRequest := {
  ImageBytes : list Byte.byte;
  Filename : string;
  ResponseCh : nat
}.

(** The [ocr.Ocr] interface: one blocking call that reads the file at the
    given path and returns the text or an error. *)
Record Ocr := {
  TextFromImageFile : gmap string (list Byte.byte) -> string -> string * option string
}.

(** The package-level variables read by the handlers and the workers. *)
Record Globals := {
  ocrClient : option Ocr;
  tesseractFound : bool
}.

(** ** [select] between one channel operation and a timer

    [readyAfter] is the time after which the channel operation can proceed
    ([None]: it never can), [timeout] the timer's duration.  The case that
    becomes ready first is taken; [tie] settles the choice when both are
    ready at once. *)
Inductive Selected (A : Type) := Proceeded (a : A) | Expired.
Arguments Proceeded {A} a.
Arguments Expired {A}.

Definition selectWithTimer {A : Type} (readyAfter : option Z) (a : A)
  (timeout : Z) (tie : bool) : Selected A :=
  match readyAfter with
  | None => Expired
  | Some t =>
      if t <? timeout then Proceeded a
      else if timeout <? t then Expired
      else if tie then Proceeded a else Expired
  end.

(** ** [processOCRRequest] *)

(** [fmt.Sprintf("%d", n)] *)
Definition formatInt (n : Z) : string := NilZero.string_of_int (Z.to_int n).

(** [fmt.Sprintf("temp_%d_%s", time.Now().UnixNano(), filename)] *)
Definition tempFileName (unixNano : Z) (filename : string) : string :=
  "temp_" ++ formatInt unixNano ++ "_" ++ filename.

(** The bytes [%d] can print are digits and the sign, never the separator. *)
Definition notUnderscore (c : ascii) : bool := negb (Ascii.eqb c "_").

(** [context.WithTimeout(context.Background(), 30*time.Second)] *)
Definition engineDeadline : Z := 30 * Second.

Definition noTextDetected : string := "No text detected in the image.".

Definition timeoutResponse : OCRResponse :=
  {| Text := EmptyString; Err := Some "OCR processing timeout" |}.

(** What the goroutine makes of the engine's answer before sending it on
    [resultCh]. *)
Definition engineResult `{GoPlatform} (answer : string * option string) : OCRResponse :=
  match answer with
  | (_, Some err) =>
      {| Text := EmptyString; Err := Some ("Tesseract OCR processing failed: " ++ err) |}
  | (text, None) =>
      let text := GoStrings.TrimSpace text in
      let text := if String.eqb text EmptyString then noTextDetected else text in
      {| Text := text; Err := None |}
  end.

(** What the surroundings decide during one job: the clock reading, the
    operating system, and the time between the creation of [ctx] and the
    goroutine's send on [resultCh] ([None]: the engine call never returns). *)
Record JobEnv := {
  unixNano : Z;
  os : OS;
  engineSendsAfter : option Z;
  selectTie : bool
}.

(** The deferred closure: remove the temporary file, log a failure. *)
Definition cleanup (o : OS) (tempFile : string) : M unit :=
  do err <- osRemove o tempFile ;
  match err with
  | Some e =>
      logPrintf ("Warning: failed to remove temporary file " ++ tempFile ++ ": " ++ e)
  | None => ret tt
  end.

Definition processOCRRequest `{GoPlatform} (g : Globals) (env : JobEnv)
  (imageBytes : list Byte.byte) (filename : string) : M OCRResponse :=
  match ocrClient g with
  | None => ret {| Text := EmptyString; Err := Some "Tesseract OCR not initialized" |}
  | Some client =>
      let tempFile := tempFileName (unixNano env) filename in
      do err <- writeImageFileOptimized (os env) tempFile imageBytes ;
      match err with
      | Some e =>
          ret {| Text := EmptyString; Err := Some ("failed to create temporary file: " ++ e) |}
      | None =>
          (* the goroutine: the engine reads the file as it is now *)
          do files <- (fun w => (fs w, w)) ;
          let sent := engineResult (TextFromImageFile client files tempFile) in
          (* select on resultCh and ctx.Done() *)
          let result :=
            match selectWithTimer (engineSendsAfter env) sent engineDeadline (selectTie env) with
            | Proceeded r => r
            | Expired => timeoutResponse
            end in
          (* deferred calls run on return: cancel(), then the cleanup *)
          do _ <- cleanup (os env) tempFile ;
          ret result
      end
  end.

(** ** [uploadHandler] *)

Record Request := {
  Method : string;
  (** [r.ParseMultipartForm(5 << 20)] returned no error *)
  formParses : bool;
  (** [r.FormFile("image")]: the header's file name, and what
      [io.ReadAll(file)] returns ([None]: a read error) *)
  formFile : option (string * option (list Byte.byte))
}.

Inductive Body :=
| Raw (s : string)
| Redirect (url : string)
| Encoded (text filename engine : string).

Record Response := { status : Z; body : Body }.

Definition StatusOK : Z := 200.
Definition StatusSeeOther : Z := 303.
Definition StatusBadRequest : Z := 400.
Definition StatusRequestTimeout : Z := 408.
Definition StatusInternalServerError : Z := 500.
Definition StatusServiceUnavailable : Z := 503.

(** What the handler does to the shared channels, in program order. *)
Inductive HandlerStep :=
| MakeChan (id : nat) (capacity : nat)
| Enqueue (req : OCRRequest)
| ReceiveReply (id : nat) (r : OCRResponse).

(** What the surroundings decide during one request: the identity of the
    channel [make] returns, when [ocrWorkerPool] can take the send (counted
    from the first [select]), when a Result is in [responseCh] (counted from
    the second [select]) and which. *)
Record HandlerEnv := {
  newChan : nat;
  poolRoomAfter : option Z;
  tieAdmission : bool;
  replyAfter : option Z;
  reply : OCRResponse;
  tieResult : bool
}.

Definition admissionTimeout : Z := 5 * Second.
Definition resultTimeout : Z := 35 * Second.


(** The double quote, and the literal [{"error": "msg"}]. *)
Definition dquote : string := String (ascii_of_nat 34) EmptyString.

Definition errorJSON (msg : string) : string :=
  "{" ++ dquote ++ "error" ++ dquote ++ ": " ++ dquote ++ msg ++ dquote ++ "}".

Definition notConfigured : Response :=
  {| status := StatusServiceUnavailable;
     body := Raw (errorJSON
       "Tesseract OCR not configured. Please visit /setup for installation instructions.") |}.

Definition invalidType : Response :=
  {| status := StatusBadRequest;
     body := Raw (errorJSON
       "Please upload a valid image file (PNG, JPG, JPEG, GIF, BMP, TIFF)") |}.

Definition serviceBusy : Response :=
  {| status := StatusServiceUnavailable;
     body := Raw (errorJSON "OCR service busy, please try again") |}.

Definition processingTimeout : Response :=
  {| status := StatusRequestTimeout;
     body := Raw (errorJSON "OCR processing timeout") |}.

(** The second [select] of the handler, once a Result has arrived. *)
Definition renderResult (filename : string) (result : OCRResponse) : Response :=
  match Err result with
  | Some e =>
      {| status := StatusInternalServerError;
         body := Raw (errorJSON ("OCR failed: " ++ e)) |}
  | None =>
      {| status := StatusOK; body := Encoded (Text result) filename "Tesseract OCR" |}
  end.

(** The handler's answer and what it did to the channels.  The pooled
    buffer taken after validation is put back untouched and is left out. *)
Definition uploadHandler `{GoPlatform} (g : Globals) (env : HandlerEnv) (r : Request)
  : Response * list HandlerStep :=
  if negb (String.eqb (Method r) "POST") then
    ({| status := StatusSeeOther; body := Redirect "/" |}, [])
  else if negb (tesseractFound g) || negb (bool_decide (is_Some (ocrClient g))) then
    (notConfigured, [])
  else if negb (formParses r) then
    ({| status := StatusBadRequest;
        body := Raw (errorJSON "File too large or invalid form data") |}, [])
  else
    match formFile r with
    | None =>
        ({| status := StatusBadRequest;
            body := Raw (errorJSON "No file uploaded or invalid file") |}, [])
    | Some (filename, content) =>
        if negb (isValidImageType filename) then (invalidType, [])
        else
          match content with
          | None =>
              ({| status := StatusInternalServerError;
                  body := Raw (errorJSON "Failed to read uploaded file") |}, [])
          | Some fileBytes =>
              let responseCh := newChan env in
              let made := MakeChan responseCh 1 in
              let req := {| ImageBytes := fileBytes; Filename := filename;
                            ResponseCh := responseCh |} in
              match selectWithTimer (poolRoomAfter env) tt admissionTimeout
                      (tieAdmission env) with
              | Expired => (serviceBusy, [made])
              | Proceeded _ =>
                  match selectWithTimer (replyAfter env) (reply env) resultTimeout
                          (tieResult env) with
                  | Proceeded result =>
                      (renderResult filename result,
                       [made; Enqueue req; ReceiveReply responseCh result])
                  | Expired => (processingTimeout, [made; Enqueue req])
                  end
              end
          end
    end.

(** ** The goroutines, interleaved

    The handlers, the three workers and the engine goroutines they spawn
    share [ocrMutex], [ocrWorkerPool] and the reply and result channels.
    Each goroutine is described by where it stands in its code; one [step]
    moves one goroutine past one synchronisation point.  What the
    surroundings decide (clock readings, write failures, the engine's
    answer, timers firing) comes with the action.  File operations are
    not synchronisation points: writing the temporary file is part of
    [Begin], the deferred cleanup is part of leaving the [select]. *)

(** [sync.RWMutex]: any number of readers, or one writer. *)
Record RWMutex := { readerCount : nat; writerHeld : bool }.

Definition RLock (m : RWMutex) : option RWMutex :=
  if writerHeld m then None
  else Some {| readerCount := S (readerCount m); writerHeld := false |}.

Definition RUnlock (m : RWMutex) : option RWMutex :=
  match readerCount m with
  | O => None
  | S n => Some {| readerCount := n; writerHeld := writerHeld m |}
  end.

Definition Lock (m : RWMutex) : option RWMutex :=
  if writerHeld m || negb (readerCount m =? 0)%nat then None
  else Some {| readerCount := 0; writerHeld := true |}.

Definition Unlock (m : RWMutex) : option RWMutex :=
  if writerHeld m then Some {| readerCount := readerCount m; writerHeld := false |}
  else None.

(** A buffered channel is its buffer; a send proceeds when the buffer has
    room, a receive when it holds a value. *)
Definition chanSend {A : Type} (capacity : nat) (buffer : list A) (v : A)
  : option (list A) :=
  if (length buffer <? capacity)%nat then Some (buffer ++ [v])%list else None.

Definition chanRecv {A : Type} (buffer : list A) : option (A * list A) :=
  match buffer with
  | [] => None
  | v :: rest => Some (v, rest)
  end.

(** [make(chan OCRRequest, 10)] and [make(chan OCRResponse, 1)] *)
Definition poolCapacity : nat := 10.
Definition responseCapacity : nat := 1.

(** [for i := 0; i < 3; i++ { go ocrWorker() }] *)
Definition workerCount : nat := 3.

(** [uploadHandler] from [make(chan OCRResponse, 1)] on. *)
Inductive HandlerPc :=
| HAdmit (req : OCRRequest)                    (* at the first select *)
| HAwait (filename : string) (responseCh : nat) (* at the second select *)
| HDone (resp : Response).

(** [ocrWorker], with [processOCRRequest] inlined. *)
Inductive WorkerPc :=
| WIdle                                          (* at [range ocrWorkerPool] *)
| WStart (req : OCRRequest)                      (* before the [go] statement *)
| WSelect (req : OCRRequest) (tempFile : string) (resultCh : nat)
| WReply (req : OCRRequest) (result : OCRResponse). (* at [req.ResponseCh <- result] *)

(** The goroutine started by [processOCRRequest]. *)
Inductive EnginePc :=
| ERLock (tempFile : string) (resultCh : nat)    (* at [ocrMutex.RLock()] *)
| ECalling (tempFile : string) (resultCh : nat)  (* inside [TextFromImageFile] *)
| EReturned (answer : string * option string) (resultCh : nat) (* at [RUnlock()] *)
| ESend (r : OCRResponse) (resultCh : nat)        (* at [resultCh <- ...] *)
| EExit.

Inductive ChanEvent :=
| Made (id : nat)
| Sent (id : nat) (r : OCRResponse)
| Received (id : nat) (r : OCRResponse).

Record System := {
  ocrMutex : RWMutex;
  ocrWorkerPool : list OCRRequest;
  (** every channel made by [make(chan OCRResponse, 1)], by identity *)
  chans : list (list OCRResponse);
  handlers : list HandlerPc;
  workers : list WorkerPc;
  engines : list EnginePc;
  (** the operations on those channels so far, latest last *)
  chanLog : list ChanEvent
}.

Definition initial : System := {|
  ocrMutex := {| readerCount := 0; writerHeld := false |};
  ocrWorkerPool := [];
  chans := [];
  handlers := [];
  workers := replicate workerCount WIdle;
  engines := [];
  chanLog := []
|}.

(** What can end [processOCRRequest] before the [go] statement. *)
Inductive Setback :=
| EngineMissing                 (* [ocrClient == nil] *)
| WriteFailed (e : string).     (* [writeImageFileOptimized] returned [e] *)

Definition setbackResponse (f : Setback) : OCRResponse :=
  match f with
  | EngineMissing =>
      {| Text := EmptyString; Err := Some "Tesseract OCR not initialized" |}
  | WriteFailed e =>
      {| Text := EmptyString; Err := Some ("failed to create temporary file: " ++ e) |}
  end.

Inductive Action :=
| Arrive (filename : string) (fileBytes : list Byte.byte)
| Admit (h : nat)
| AdmitExpire (h : nat)
| Await (h : nat)
| AwaitExpire (h : nat)
| Dequeue (w : nat)
| Begin (w : nat) (unixNano : Z) (setback : option Setback)
| EngineRLock (e : nat)
| EngineReturn (e : nat) (answer : string * option string)
| EngineRUnlock (e : nat)
| EngineSend (e : nat)
| Collect (w : nat)
| Deadline (w : nat)
| Reply (w : nat).

Definition setHandler (h : nat) (pc : HandlerPc) (s : System) : System :=
  {| ocrMutex := ocrMutex s; ocrWorkerPool := ocrWorkerPool s; chans := chans s;
     handlers := <[h := pc]> (handlers s); workers := workers s;
     engines := engines s; chanLog := chanLog s |}.

Definition setWorker (w : nat) (pc : WorkerPc) (s : System) : System :=
  {| ocrMutex := ocrMutex s; ocrWorkerPool := ocrWorkerPool s; chans := chans s;
     handlers := handlers s; workers := <[w := pc]> (workers s);
     engines := engines s; chanLog := chanLog s |}.

Definition setEngine (e : nat) (pc : EnginePc) (s : System) : System :=
  {| ocrMutex := ocrMutex s; ocrWorkerPool := ocrWorkerPool s; chans := chans s;
     handlers := handlers s; workers := workers s;
     engines := <[e := pc]> (engines s); chanLog := chanLog s |}.

Definition setMutex (m : RWMutex) (s : System) : System :=
  {| ocrMutex := m; ocrWorkerPool := ocrWorkerPool s; chans := chans s;
     handlers := handlers s; workers := workers s;
     engines := engines s; chanLog := chanLog s |}.

Definition setPool (q : list OCRRequest) (s : System) : System :=
  {| ocrMutex := ocrMutex s; ocrWorkerPool := q; chans := chans s;
     handlers := handlers s; workers := workers s;
     engines := engines s; chanLog := chanLog s |}.

(** Replace the buffer of channel [c] and record the operation. *)
Definition setChan (c : nat) (buffer : list OCRResponse) (ev : ChanEvent)
  (s : System) : System :=
  {| ocrMutex := ocrMutex s; ocrWorkerPool := ocrWorkerPool s;
     chans := <[c := buffer]> (chans s);
     handlers := handlers s; workers := workers s;
     engines := engines s; chanLog := (chanLog s ++ [ev])%list |}.

(** [make(chan OCRResponse, 1)]: the new channel's identity is the next
    free one. *)
Definition makeChan (s : System) : nat * System :=
  (length (chans s),
   {| ocrMutex := ocrMutex s; ocrWorkerPool := ocrWorkerPool s;
      chans := (chans s ++ [[]])%list;
      handlers := handlers s; workers := workers s;
      engines := engines s; chanLog := (chanLog s ++ [Made (length (chans s))])%list |}).

Definition addHandler (pc : HandlerPc) (s : System) : System :=
  {| ocrMutex := ocrMutex s; ocrWorkerPool := ocrWorkerPool s; chans := chans s;
     handlers := (handlers s ++ [pc])%list; workers := workers s;
     engines := engines s; chanLog := chanLog s |}.

Definition addEngine (pc : EnginePc) (s : System) : System :=
  {| ocrMutex := ocrMutex s; ocrWorkerPool := ocrWorkerPool s; chans := chans s;
     handlers := handlers s; workers := workers s;
     engines := (engines s ++ [pc])%list; chanLog := chanLog s |}.

(** Send [r] on channel [c] of capacity 1; [None] when the send would
    block (or the channel does not exist). *)
Definition sendOn (c : nat) (r : OCRResponse) (s : System) : option System :=
  match chans s !! c with
  | Some buffer =>
      match chanSend responseCapacity buffer r with
      | Some buffer' => Some (setChan c buffer' (Sent c r) s)
      | None => None
      end
  | None => None
  end.

Definition recvFrom (c : nat) (s : System) : option (OCRResponse * System) :=
  match chans s !! c with
  | Some buffer =>
      match chanRecv buffer with
      | Some (r, rest) => Some (r, setChan c rest (Received c r) s)
      | None => None
      end
  | None => None
  end.

Definition step `{GoPlatform} (s : System) (a : Action) : option System :=
  match a with
  | Arrive filename fileBytes =>
      let (responseCh, s1) := makeChan s in
      Some (addHandler (HAdmit {| ImageBytes := fileBytes; Filename := filename;
                                  ResponseCh := responseCh |}) s1)
  | Admit h =>
      match handlers s !! h with
      | Some (HAdmit req) =>
          match chanSend poolCapacity (ocrWorkerPool s) req with
          | Some q => Some (setHandler h (HAwait (Filename req) (ResponseCh req))
                              (setPool q s))
          | None => None
          end
      | _ => None
      end
  | AdmitExpire h =>
      match handlers s !! h with
      | Some (HAdmit _) => Some (setHandler h (HDone serviceBusy) s)
      | _ => None
      end
  | Await h =>
      match handlers s !! h with
      | Some (HAwait filename responseCh) =>
          match recvFrom responseCh s with
          | Some (result, s1) => Some (setHandler h (HDone (renderResult filename result)) s1)
          | None => None
          end
      | _ => None
      end
  | AwaitExpire h =>
      match handlers s !! h with
      | Some (HAwait _ _) => Some (setHandler h (HDone processingTimeout) s)
      | _ => None
      end
  | Dequeue w =>
      match workers s !! w with
      | Some WIdle =>
          match chanRecv (ocrWorkerPool s) with
          | Some (req, rest) => Some (setWorker w (WStart req) (setPool rest s))
          | None => None
          end
      | _ => None
      end
  | Begin w nanos setback =>
      match workers s !! w with
      | Some (WStart req) =>
          match setback with
          | Some f => Some (setWorker w (WReply req (setbackResponse f)) s)
          | None =>
              let tempFile := tempFileName nanos (Filename req) in
              let (resultCh, s1) := makeChan s in
              Some (setWorker w (WSelect req tempFile resultCh)
                      (addEngine (ERLock tempFile resultCh) s1))
          end
      | _ => None
      end
  | EngineRLock e =>
      match engines s !! e with
      | Some (ERLock tempFile resultCh) =>
          match RLock (ocrMutex s) with
          | Some m => Some (setEngine e (ECalling tempFile resultCh) (setMutex m s))
          | None => None
          end
      | _ => None
      end
  | EngineReturn e answer =>
      match engines s !! e with
      | Some (ECalling _ resultCh) => Some (setEngine e (EReturned answer resultCh) s)
      | _ => None
      end
  | EngineRUnlock e =>
      match engines s !! e with
      | Some (EReturned answer resultCh) =>
          match RUnlock (ocrMutex s) with
          | Some m => Some (setEngine e (ESend (engineResult answer) resultCh) (setMutex m s))
          | None => None
          end
      | _ => None
      end
  | EngineSend e =>
      match engines s !! e with
      | Some (ESend r resultCh) =>
          match sendOn resultCh r s with
          | Some s1 => Some (setEngine e EExit s1)
          | None => None
          end
      | _ => None
      end
  | Collect w =>
      match workers s !! w with
      | Some (WSelect req _ resultCh) =>
          match recvFrom resultCh s with
          | Some (result, s1) => Some (setWorker w (WReply req result) s1)
          | None => None
          end
      | _ => None
      end
  | Deadline w =>
      match workers s !! w with
      | Some (WSelect req _ _) => Some (setWorker w (WReply req timeoutResponse) s)
      | _ => None
      end
  | Reply w =>
      match workers s !! w with
      | Some (WReply req result) =>
          match sendOn (ResponseCh req) result s with
          | Some s1 => Some (setWorker w WIdle s1)
          | None => None
          end
      | _ => None
      end
  end.

(** A schedule is a list of actions; it runs as long as each is enabled. *)
Fixpoint run `{GoPlatform} (s : System) (schedule : list Action) : option System :=
  match schedule with
  | [] => Some s
  | a :: rest =>
      match step s a with
      | Some s' => run s' rest
      | None => None
      end
  end.

Definition reachable `{GoPlatform} (s : System) : Prop :=
  exists schedule, run initial schedule = Some s.

(** *** Observations on a state *)

Definition ind (b : bool) : nat := if b then 1%nat else 0%nat.

(** Engine goroutines inside [TextFromImageFile]. *)
Definition calling (pc : EnginePc) : nat :=
  match pc with ECalling _ _ => 1%nat | _ => 0%nat end.

Definition inFlight (s : System) : nat := sum_list_with calling (engines s).

(** Engine goroutines between [RLock()] and [RUnlock()]. *)
Definition holding (pc : EnginePc) : nat :=
  match pc with ECalling _ _ | EReturned _ _ => 1%nat | _ => 0%nat end.

Definition readLockHolders (s : System) : nat := sum_list_with holding (engines s).

(** Calls to [os.Remove(name)] in a list of system calls. *)
Definition isRemoveOf (name : string) (c : Syscall) : bool :=
  match c with
  | SysRemove n => String.eqb n name
  | _ => false
  end.

Definition removals (name : string) (calls : list Syscall) : nat :=
  length (filter (fun c => isRemoveOf name c = true) calls).

Definition isEnqueue (st : HandlerStep) : bool :=
  match st with Enqueue _ => true | _ => false end.

(** The same surroundings with another behaviour of [os.Remove]. *)
Definition withRemove (rf : string -> option string) (env : JobEnv) : JobEnv :=
  {| unixNano := unixNano env;
     os := {| createFails := createFails (os env); rawWrite := rawWrite (os env);
              removeFails := rf |};
     engineSendsAfter := engineSendsAfter env;
     selectTie := selectTie env |}.

(** The same surroundings with another engine timing. *)
Definition withEngineTiming (after : option Z) (tie : bool) (env : JobEnv) : JobEnv :=
  {| unixNano := unixNano env; os := os env;
     engineSendsAfter := after; selectTie := tie |}.

(** ** Sample surroundings for running the model *)

(** An operating system on which every call succeeds. *)
Definition obligingOS : OS :=
  {| createFails := fun _ => None;
     rawWrite := fun _ b => (length b, None);
     removeFails := fun _ => None |}.

Definition emptyWorld : World := {| fs := ∅; trace := []; bufferPool := [] |}.

(** A stub engine: it answers [text] for every file that exists. *)
Definition stubEngine (text : string) : Ocr :=
  {| TextFromImageFile := fun files path =>
       match files !! path with
       | Some _ => (text, None)
       | None => (EmptyString, Some "cannot open input file")
       end |}.

Definition readyGlobals (text : string) : Globals :=
  {| ocrClient := Some (stubEngine text); tesseractFound := true |}.

(** A job whose engine call answers after [after] nanoseconds. *)
Definition sampleJobEnv (after : option Z) : JobEnv :=
  {| unixNano := 1700000000123456789; os := obligingOS;
     engineSendsAfter := after; selectTie := true |}.

Definition sampleUpload (filename : string) : Request :=
  {| Method := "POST"; formParses := true;
     formFile := Some (filename, Some [x89; x50; x4e; x47]%byte) |}.

Definition sampleHandlerEnv (room reply_after : option Z) (r : OCRResponse) : HandlerEnv :=
  {| newChan := 0; poolRoomAfter := room; tieAdmission := true;
     replyAfter := reply_after; reply := r; tieResult := true |}.

(** *** Who may still use a channel

    A goroutine counts as a sender on the channels it will still send on,
    and as a receiver on those it may still receive from. *)

Definition refersTo (c : nat) (req : OCRRequest) : nat := ind (ResponseCh req =? c)%nat.

Definition handlerSends (c : nat) (pc : HandlerPc) : nat :=
  match pc with
  | HAdmit req => refersTo c req      (* the job it is about to enqueue *)
  | _ => 0%nat
  end.

Definition workerSends (c : nat) (pc : WorkerPc) : nat :=
  match pc with
  | WStart req | WSelect req _ _ | WReply req _ => refersTo c req
  | WIdle => 0%nat
  end.

Definition engineSends (c : nat) (pc : EnginePc) : nat :=
  match pc with
  | ERLock _ rc | ECalling _ rc | EReturned _ rc | ESend _ rc => ind (rc =? c)%nat
  | EExit => 0%nat
  end.

Definition senders (c : nat) (s : System) : nat :=
  (sum_list_with (handlerSends c) (handlers s)
   + sum_list_with (refersTo c) (ocrWorkerPool s)
   + sum_list_with (workerSends c) (workers s)
   + sum_list_with (engineSends c) (engines s))%nat.

Definition handlerReceives (c : nat) (pc : HandlerPc) : nat :=
  match pc with
  | HAdmit req => refersTo c req
  | HAwait _ responseCh => ind (responseCh =? c)%nat
  | HDone _ => 0%nat
  end.

Definition workerReceives (c : nat) (pc : WorkerPc) : nat :=
  match pc with
  | WSelect _ _ rc => ind (rc =? c)%nat
  | _ => 0%nat
  end.

Definition receivers (c : nat) (s : System) : nat :=
  (sum_list_with (handlerReceives c) (handlers s)
   + sum_list_with (workerReceives c) (workers s))%nat.

Definition sentOn (c : nat) (ev : ChanEvent) : nat :=
  match ev with Sent id _ => ind (id =? c)%nat | _ => 0%nat end.

Definition receivedFrom (c : nat) (ev : ChanEvent) : nat :=
  match ev with Received id _ => ind (id =? c)%nat | _ => 0%nat end.

(** Sends on, and receives from, channel [c] so far. *)
Definition sends (c : nat) (s : System) : nat := sum_list_with (sentOn c) (chanLog s).
Definition receipts (c : nat) (s : System) : nat :=
  sum_list_with (receivedFrom c) (chanLog s).

(** The read lock is held by exactly the goroutines between [RLock()] and
    [RUnlock()], and never by a writer. *)
Definition mutexInv (s : System) : Prop :=
  readerCount (ocrMutex s) = readLockHolders s /\ writerHeld (ocrMutex s) = false.

(** Every channel has at most one send in its whole life, done or still to
    come, and at most one receive; a channel not yet made is known to
    nobody; a buffer holds what was sent and not yet received. *)
Definition channelInv (s : System) : Prop :=
  forall c : nat,
    (senders c s + sends c s <= 1)%nat /\
    (receivers c s + receipts c s <= 1)%nat /\
    ((length (chans s) <= c)%nat ->
     senders c s = 0%nat /\ receivers c s = 0%nat /\
     sends c s = 0%nat /\ receipts c s = 0%nat) /\
    (forall buffer, chans s !! c = Some buffer ->
                    (length buffer + receipts c s = sends c s)%nat).

(** ** Sample schedules *)

(** Two uploads arrive and are admitted, two workers take them and start
    their engine goroutines, and both goroutines pass [ocrMutex.RLock()]. *)
Definition overlapSchedule : list Action :=
  [Arrive "a.png" [x01]%byte; Arrive "b.png" [x02]%byte;
   Admit 0; Admit 1; Dequeue 0; Dequeue 1;
   Begin 0 1700000000000000001 None; Begin 1 1700000000000000002 None;
   EngineRLock 0; EngineRLock 1].

(** Two uploads of the same file name, taken by two workers that read the
    same clock value. *)
Definition collisionSchedule : list Action :=
  [Arrive "scan.png" [x01]%byte; Arrive "scan.png" [x02]%byte;
   Admit 0; Admit 1; Dequeue 0; Dequeue 1;
   Begin 0 1700000000000000000 None; Begin 1 1700000000000000000 None].

(** One upload whose handler gives up after 35 seconds while the worker is
    still waiting for the engine; the worker then runs into its own
    deadline and stands at the send on the reply channel. *)
Definition abandonedSchedule : list Action :=
  [Arrive "a.png" [x01]%byte; Admit 0; Dequeue 0;
   Begin 0 1700000000000000001 None; EngineRLock 0;
   AwaitExpire 0; Deadline 0].

(** ** Start-up: [findAvailablePort], [checkTesseractInstallation], [initOCR] *)







(** What the host decides while Tesseract is looked for: the operating
    system ([runtime.GOOS == "windows"]), whether [exec.LookPath] finds a
    name, and whether running it with [--version] ends without error
    within 5 seconds. *)
Record Host := {
  isWindows : bool;
  lookPath : string -> bool;
  versionRuns : string -> bool
}.

(** What [ocr.New] returns for the given [TesseractPath] option ([None]:
    called without options). *)
Record OcrLibrary := {
  ocrNew : option string -> option Ocr * option string
}.

(** The package-level variables of the start-up code, and the names handed
    to [exec.LookPath] so far. *)
Record Startup := {
  tesseractPath : string;
  globals : Globals;
  lookedUp : list string
}.

(** The zero values the variables have when the program starts. *)
Definition zeroStartup : Startup :=
  {| tesseractPath := EmptyString;
     globals := {| ocrClient := None; tesseractFound := false |};
     lookedUp := [] |}.

Definition candidatePaths (windows : bool) : list string :=
  ("tesseract" ::
   (if windows then
      ["tesseract.exe";
       "C:/Program Files/Tesseract-OCR/tesseract.exe";
       "C:/Program Files (x86)/Tesseract-OCR/tesseract.exe"]
    else
      ["/usr/bin/tesseract";
       "/usr/local/bin/tesseract";
       "/opt/homebrew/bin/tesseract"]))%list.

(** The [range] loop of [checkTesseractInstallation]: the first path that
    is found and runs, with the names looked up on the way. *)
Fixpoint rangePaths (h : Host) (paths : list string) : option string * list string :=
  match paths with
  | [] => (None, [])
  | path :: more =>
      if lookPath h path && versionRuns h path then (Some path, [path])
      else let (found, looked) := rangePaths h more in (found, path :: looked)
  end.

Definition setFound (found : bool) (g : Globals) : Globals :=
  {| ocrClient := ocrClient g; tesseractFound := found |}.

Definition checkTesseractInstallation (h : Host) (st : Startup)
  : (string * bool) * Startup :=
  if negb (String.eqb (tesseractPath st) EmptyString) then
    ((tesseractPath st, tesseractFound (globals st)), st)
  else
    match rangePaths h (candidatePaths (isWindows h)) with
    | (Some path, looked) =>
        ((path, true),
         {| tesseractPath := path;
            globals := setFound true (globals st);
            lookedUp := (lookedUp st ++ looked)%list |})
    | (None, looked) =>
        ((EmptyString, false),
         {| tesseractPath := tesseractPath st;
            globals := setFound false (globals st);
            lookedUp := (lookedUp st ++ looked)%list |})
    end.

Definition initOCR (h : Host) (lib : OcrLibrary) (st : Startup) : Startup :=
  let (answer, st1) := checkTesseractInstallation h st in
  let (path, found) := (answer : string * bool) in
  if negb found then st1
  else
    let (client, err) :=
      if String.eqb path "tesseract" then ocrNew lib None
      else ocrNew lib (Some path) in
    match err with
    | Some _ =>
        {| tesseractPath := tesseractPath st1;
           globals := {| ocrClient := None; tesseractFound := false |};
           lookedUp := lookedUp st1 |}
    | None =>
        {| tesseractPath := tesseractPath st1;
           globals := {| ocrClient := client;
                         tesseractFound := tesseractFound (globals st1) |};
           lookedUp := lookedUp st1 |}
    end.

(** ** The page handlers and the template cache *)

(** [templateCache]: for each name, whether the stored pointer is a parsed
    template ([true]) or nil ([false], what [Parse] returns with an
    error). *)
Definition TemplateCache := gmap string bool.

(** [precompileTemplates]: both entries are assigned whatever [Parse]
    returned; [parses] tells whether [template.New(name).Parse(text)]
    succeeds. *)
Definition precompileTemplates (parses : string -> bool) (cache : gmap string bool)
  : gmap string bool :=
  <["home" := parses "home"]> (<["setup" := parses "setup"]> cache).

(** The data [homeHandler] executes its template with. *)
Record HomeData := {
  Status : string;
  StatusClass : string;
  SetupWarning : string;
  InitialMessage : string
}.

Inductive Page :=
| PlainText (msg : string)          (* [http.Error] *)
| SetupPage                         (* the setup template, executed with nil *)
| HomePage (data : HomeData).       (* the home template, executed with [data] *)

Record PageResponse := {
  pageStatus : Z;
  cacheControl : option string;
  page : Page
}.

(** How a page handler ends: with a response, or in the nil-pointer panic
    of [Execute] called on a nil template, before anything is written. *)
Inductive PageOutcome :=
| Served (r : PageResponse)
| NilTemplate.

Definition templateNotFound : PageResponse :=
  {| pageStatus := StatusInternalServerError; cacheControl := None;
     page := PlainText "Template not found" |}.

Definition setupPage : PageResponse :=
  {| pageStatus := StatusOK; cacheControl := Some "public, max-age=300";
     page := SetupPage |}.

Definition setupHandler (cache : gmap string bool) : PageOutcome :=
  match (cache !! "setup" : option bool) with
  | None => Served templateNotFound
  | Some parsed => if parsed then Served setupPage else NilTemplate
  end.

Definition readyData : HomeData :=
  {| Status := "Ready"; StatusClass := "status-ok";
     SetupWarning := EmptyString;
     InitialMessage := "Belum ada gambar yang diproses..." |}.

Definition notConfiguredData : HomeData :=
  {| Status := "Not Configured"; StatusClass := "status-error";
     SetupWarning :=
       "<div class=" ++ dquote ++ "setup-warning" ++ dquote
       ++ ">⚠️ Tesseract OCR not installed. <a href=" ++ dquote ++ "/setup" ++ dquote
       ++ ">Click here for installation instructions</a></div>";
     InitialMessage :=
       "Tesseract OCR not installed. Please visit the setup page to install Tesseract OCR." |}.

Definition homePage (data : HomeData) : PageResponse :=
  {| pageStatus := StatusOK; cacheControl := Some "no-cache"; page := HomePage data |}.

Definition homeHandler (g : Globals) (cache : gmap string bool) : PageOutcome :=
  match (cache !! "home" : option bool) with
  | None => Served templateNotFound
  | Some parsed =>
      let data :=
        if negb (tesseractFound g) || negb (bool_decide (is_Some (ocrClient g)))
        then notConfiguredData else readyData in
      if parsed then Served (homePage data) else NilTemplate
  end.

(** A host on which only [/usr/bin/tesseract] is found, and one without
    Tesseract. *)
Definition linuxHost : Host :=
  {| isWindows := false;
     lookPath := fun q => String.eqb q "/usr/bin/tesseract";
     versionRuns := fun _ => true |}.

Definition bareHost (windows : bool) : Host :=
  {| isWindows := windows; lookPath := fun _ => false; versionRuns := fun _ => true |}.

(** An [ocr.New] that hands out the stub engine. *)
Definition stubLibrary (text : string) : OcrLibrary :=
  {| ocrNew := fun _ => (Some (stubEngine text), None) |}.

(** ** Shapes of file names *)

Definition notDot (c : ascii) : bool := negb (Ascii.eqb c ".").

Definition notSeparator `{GoPlatform} (c : ascii) : bool := negb (IsPathSeparator c).

(** *** Histories of a schedule *)

(** The job a step puts into [ocrWorkerPool], if any. *)
Definition admittedBy (s : System) (a : Action) : list OCRRequest :=
  match a with
  | Admit h =>
      match handlers s !! h with
      | Some (HAdmit req) => [req]
      | _ => []
      end
  | _ => []
  end.

(** The job a step takes out of [ocrWorkerPool], if any. *)
Definition takenBy (s : System) (a : Action) : list OCRRequest :=
  match a with
  | Dequeue _ =>
      match ocrWorkerPool s with
      | req :: _ => [req]
      | [] => []
      end
  | _ => []
  end.

(** What the steps of a schedule contribute, in order. *)
Fixpoint history `{GoPlatform} (pick : System -> Action -> list OCRRequest)
  (s : System) (schedule : list Action) : list OCRRequest :=
  match schedule with
  | [] => []
  | a :: rest =>
      match step s a with
      | Some s' => (pick s a ++ history pick s' rest)%list
      | None => []
      end
  end.

(** The Results sent on, and received from, channel [c], in order. *)
Definition sentValue (c : nat) (ev : ChanEvent) : list OCRResponse :=
  match ev with
  | Sent id r => if (id =? c)%nat then [r] else []
  | _ => []
  end.

Definition receivedValue (c : nat) (ev : ChanEvent) : list OCRResponse :=
  match ev with
  | Received id r => if (id =? c)%nat then [r] else []
  | _ => []
  end.

Definition sentValues (c : nat) (s : System) : list OCRResponse :=
  flat_map (sentValue c) (chanLog s).

Definition receivedValues (c : nat) (s : System) : list OCRResponse :=
  flat_map (receivedValue c) (chanLog s).

(** What is in channel [c] (nothing when it has not been made). *)
Definition buffered (c : nat) (s : System) : list OCRResponse :=
  default [] (chans s !! c).

(** Workers that hold a job. *)
Definition busy (pc : WorkerPc) : nat :=
  match pc with WIdle => 0%nat | _ => 1%nat end.

Definition jobsInside (s : System) : nat :=
  (length (ocrWorkerPool s) + sum_list_with busy (workers s))%nat.

(** The steps of worker [w], and those of engine goroutine [e]. *)
Definition byWorker (w : nat) (a : Action) : bool :=
  match a with
  | Dequeue w' | Begin w' _ _ | Collect w' | Deadline w' | Reply w' => (w' =? w)%nat
  | _ => false
  end.

Definition byEngine (e : nat) (a : Action) : bool :=
  match a with
  | EngineRLock e' | EngineReturn e' _ | EngineRUnlock e' | EngineSend e' => (e' =? e)%nat
  | _ => false
  end.

(** One upload that is admitted, taken by worker 0, handed to an engine
    goroutine that enters the engine, and given up by the worker at its
    deadline; [h] and [e] are the positions the new handler and the new
    goroutine get. *)
Definition leakRound (h e : nat) : list Action :=
  [Arrive "a.png" []; Admit h; Dequeue 0; Begin 0 0 None; EngineRLock e;
   Deadline 0; Reply 0].

(** The job a worker holds. *)
Definition jobOf (pc : WorkerPc) : option OCRRequest :=
  match pc with
  | WIdle => None
  | WStart req | WSelect req _ _ | WReply req _ => Some req
  end.

(** * Properties *)

(** ** The model on sample inputs *)

Example Ext_of_upper_case : @GoStrings.Ext unixASCII "scans/page.1/Photo.PNG" = ".PNG".
Proof. reflexivity. Qed.

Example Ext_stops_at_separator : @GoStrings.Ext unixASCII "scans.d/README" = EmptyString.
Proof. reflexivity. Qed.

Example ToLower_of_mixed_case : @GoStrings.ToLower unixASCII ".JPeG" = ".jpeg".
Proof. reflexivity. Qed.

Example TrimSpace_of_blanks :
  @GoStrings.TrimSpace unixASCII (String (ascii_of_nat 9) "  two words  ") = "two words".
Proof. reflexivity. Qed.

Example valid_upper_case_name : @isValidImageType unixASCII "Photo.JPG" = true.
Proof. reflexivity. Qed.

Example invalid_double_extension : @isValidImageType unixASCII "photo.jpg.exe" = false.
Proof. reflexivity. Qed.

Example invalid_tif : @isValidImageType unixASCII "scan.tif" = false.
Proof. reflexivity. Qed.

Example tempFileName_sample :
  tempFileName 1700000000123456789 "page.png" = "temp_1700000000123456789_page.png".
Proof. reflexivity. Qed.

Example blank_answer_gives_sentinel :
  @engineResult unixASCII ("   ", None)
  = {| Text := "No text detected in the image."; Err := None |}.
Proof. reflexivity. Qed.

(** ** The extension check *)

Lemma rangeValidExts_In (ext : string) (exts : list string) :
  rangeValidExts ext exts = true <-> In ext exts.
Proof.
  induction exts as [|v more IH]; simpl.
  - split; [discriminate | tauto].
  - destruct (String.eqb_spec ext v) as [->|Hne].
    + split; auto.
    + rewrite IH. split; [auto | intros [Heq|Hin]; [congruence | exact Hin]].
Qed.

Lemma isValidImageType_false `{GoPlatform} (filename : string) :
  ~ In (GoStrings.ToLower (GoStrings.Ext filename)) validExts ->
  isValidImageType filename = false.
Proof.
  intros Hnot. unfold isValidImageType.
  destruct (rangeValidExts _ validExts) eqn:E; [|reflexivity].
  apply rangeValidExts_In in E. contradiction.
Qed.

(** C7: [isValidImageType] answers true exactly when the lowercased
    extension of the file name is one of .png, .jpg, .jpeg, .gif, .bmp,
    .tiff; an upload whose file name fails that test never makes a channel
    or enqueues a job, and once it reaches the check (a POST, engine
    configured, form parsed) it is answered with status 400. *)
Theorem invalid_extension_rejected `{GoPlatform} (filename : string) :
  (isValidImageType filename = true <->
   In (GoStrings.ToLower (GoStrings.Ext filename))
      [".png"; ".jpg"; ".jpeg"; ".gif"; ".bmp"; ".tiff"]) /\
  (forall (g : Globals) (env : HandlerEnv) (r : Request)
          (content : option (list Byte.byte)),
      formFile r = Some (filename, content) ->
      ~ In (GoStrings.ToLower (GoStrings.Ext filename))
           [".png"; ".jpg"; ".jpeg"; ".gif"; ".bmp"; ".tiff"] ->
      snd (uploadHandler g env r) = [] /\
      (Method r = "POST" -> tesseractFound g = true -> is_Some (ocrClient g) ->
       formParses r = true ->
       fst (uploadHandler g env r) = invalidType /\
       status (fst (uploadHandler g env r)) = 400)).
Proof.
  split.
  - unfold isValidImageType. apply rangeValidExts_In.
  - intros g env r content Hfile Hnot.
    apply isValidImageType_false in Hnot.
    unfold uploadHandler. rewrite Hfile, Hnot. simpl.
    split.
    + repeat (match goal with |- context [if ?b then _ else _] => destruct b end;
              simpl; try reflexivity).
    + intros HM Hfound Hclient Hparse.
      rewrite HM, Hfound, Hparse. simpl.
      rewrite bool_decide_eq_true_2 by exact Hclient. simpl. auto.
Qed.

Lemma invalid_extension_rejected_witness :
  fst (@uploadHandler unixASCII
         {| ocrClient := Some {| TextFromImageFile := fun _ _ => ("text", None) |};
            tesseractFound := true |}
         {| newChan := 0; poolRoomAfter := Some 0; tieAdmission := true;
            replyAfter := Some 0;
            reply := {| Text := "text"; Err := None |}; tieResult := true |}
         {| Method := "POST"; formParses := true;
            formFile := Some ("notes.txt", Some []) |}) = invalidType.
Proof.
  apply (proj2 (@invalid_extension_rejected unixASCII "notes.txt")) with (content := Some []).
  - reflexivity.
  - vm_compute. intuition discriminate.
  - reflexivity.
  - reflexivity.
  - simpl. eexists. reflexivity.
  - reflexivity.
Defined.

(** ** The job routine, one call at a time *)

Lemma selectWithTimer_early {A : Type} (t : Z) (a : A) (timeout : Z) (tie : bool) :
  t < timeout -> selectWithTimer (Some t) a timeout tie = Proceeded a.
Proof.
  intros Hlt. unfold selectWithTimer.
  destruct (Z.ltb_spec t timeout); [reflexivity | lia].
Qed.

Lemma selectWithTimer_late {A : Type} (after : option Z) (a : A) (timeout : Z) (tie : bool) :
  after = None \/ (exists t, after = Some t /\ timeout < t) ->
  selectWithTimer after a timeout tie = Expired.
Proof.
  intros [-> | (t & -> & Hlt)]; [reflexivity|].
  unfold selectWithTimer.
  destruct (Z.ltb_spec t timeout); [lia|].
  destruct (Z.ltb_spec timeout t); [reflexivity | lia].
Qed.

Lemma selectWithTimer_cases {A : Type} (after : option Z) (a : A) (timeout : Z)
  (tie : bool) :
  selectWithTimer after a timeout tie = Proceeded a \/
  selectWithTimer after a timeout tie = Expired.
Proof.
  unfold selectWithTimer. destruct after as [t|]; [|auto].
  destruct (t <? timeout); [auto|].
  destruct (timeout <? t); [auto|]. destruct tie; auto.
Qed.

(** Once the temporary file is written, the routine is the [select]
    followed by the deferred cleanup. *)
Lemma processOCRRequest_written `{GoPlatform} (g : Globals) (env : JobEnv)
  (imageBytes : list Byte.byte) (filename : string) (w w1 : World) (client : Ocr) :
  ocrClient g = Some client ->
  writeImageFileOptimized (os env) (tempFileName (unixNano env) filename) imageBytes w
    = (None, w1) ->
  processOCRRequest g env imageBytes filename w =
    (match selectWithTimer (engineSendsAfter env)
             (engineResult (TextFromImageFile client (fs w1)
                              (tempFileName (unixNano env) filename)))
             engineDeadline (selectTie env) with
     | Proceeded r => r
     | Expired => timeoutResponse
     end,
     snd (cleanup (os env) (tempFileName (unixNano env) filename) w1)).
Proof.
  intros Hc Hw. unfold processOCRRequest. rewrite Hc.
  unfold bind at 1. rewrite Hw. unfold bind, ret.
  destruct (cleanup _ _ w1) as [[] w2]. reflexivity.
Qed.

Lemma engineResult_success `{GoPlatform} (t : string) :
  engineResult (t, None) =
    {| Text := if String.eqb (GoStrings.TrimSpace t) EmptyString
               then noTextDetected else GoStrings.TrimSpace t;
       Err := None |}.
Proof. reflexivity. Qed.

Lemma engineResult_never_empty `{GoPlatform} (answer : string * option string) :
  Err (engineResult answer) = None -> Text (engineResult answer) <> EmptyString.
Proof.
  destruct answer as [t [e|]]; simpl; [discriminate|].
  intros _. destruct (String.eqb_spec (GoStrings.TrimSpace t) EmptyString) as [|Hne].
  - discriminate.
  - exact Hne.
Qed.

Lemma success_never_empty `{GoPlatform} (g : Globals) (env : JobEnv)
  (imageBytes : list Byte.byte) (filename : string) (w : World) :
  Err (fst (processOCRRequest g env imageBytes filename w)) = None ->
  Text (fst (processOCRRequest g env imageBytes filename w)) <> EmptyString.
Proof.
  destruct (ocrClient g) as [client|] eqn:Hc.
  - destruct (writeImageFileOptimized (os env) (tempFileName (unixNano env) filename)
                imageBytes w) as [[e|] w1] eqn:Hw.
    + unfold processOCRRequest. rewrite Hc. unfold bind at 1. rewrite Hw.
      simpl. discriminate.
    + rewrite (processOCRRequest_written g env imageBytes filename w w1 client Hc Hw).
      cbn [fst].
      destruct (selectWithTimer_cases (engineSendsAfter env)
                  (engineResult (TextFromImageFile client (fs w1)
                                   (tempFileName (unixNano env) filename)))
                  engineDeadline (selectTie env)) as [-> | ->].
      * apply engineResult_never_empty.
      * discriminate.
  - unfold processOCRRequest. rewrite Hc. simpl. discriminate.
Qed.

(** C3: for an engine call that succeeds with text [t], the Result the
    goroutine sends carries no error and the text [t] with surrounding
    blanks trimmed, or the sentinel "No text detected in the image." when
    nothing is left, never the empty string; that Result is what the job
    routine returns when it arrives before the deadline; and no Result
    without an error carries the empty string. *)
Theorem successful_text_normalized `{GoPlatform} (t : string) :
  let sent := engineResult (t, None) in
  Err sent = None /\
  (GoStrings.TrimSpace t <> EmptyString -> Text sent = GoStrings.TrimSpace t) /\
  (GoStrings.TrimSpace t = EmptyString -> Text sent = "No text detected in the image.") /\
  Text sent <> EmptyString /\
  (forall (g : Globals) (env : JobEnv) (imageBytes : list Byte.byte)
          (filename : string) (w w1 : World) (client : Ocr) (d : Z),
      ocrClient g = Some client ->
      writeImageFileOptimized (os env) (tempFileName (unixNano env) filename) imageBytes w
        = (None, w1) ->
      TextFromImageFile client (fs w1) (tempFileName (unixNano env) filename) = (t, None) ->
      engineSendsAfter env = Some d ->
      d < engineDeadline ->
      fst (processOCRRequest g env imageBytes filename w) = sent) /\
  (forall (g : Globals) (env : JobEnv) (imageBytes : list Byte.byte)
          (filename : string) (w : World),
      Err (fst (processOCRRequest g env imageBytes filename w)) = None ->
      Text (fst (processOCRRequest g env imageBytes filename w)) <> EmptyString).
Proof.
  intros sent. subst sent. rewrite engineResult_success. cbn [Text Err].
  split; [reflexivity|].
  destruct (String.eqb_spec (GoStrings.TrimSpace t) EmptyString) as [He|Hne].
  - split; [congruence|]. split; [reflexivity|]. split; [discriminate|]. split.
    + intros g env imageBytes filename w w1 client d Hc Hw Hans Hafter Hd.
      rewrite (processOCRRequest_written g env imageBytes filename w w1 client Hc Hw).
      rewrite Hans, Hafter, (selectWithTimer_early _ _ _ _ Hd), engineResult_success.
      cbn [fst]. rewrite He. reflexivity.
    + apply success_never_empty.
  - split; [reflexivity|]. split; [congruence|]. split; [exact Hne|]. split.
    + intros g env imageBytes filename w w1 client d Hc Hw Hans Hafter Hd.
      rewrite (processOCRRequest_written g env imageBytes filename w w1 client Hc Hw).
      rewrite Hans, Hafter, (selectWithTimer_early _ _ _ _ Hd), engineResult_success.
      cbn [fst]. destruct (String.eqb_spec (GoStrings.TrimSpace t) EmptyString);
        [contradiction | reflexivity].
    + apply success_never_empty.
Qed.

Lemma successful_text_normalized_witness :
  Text (fst (@processOCRRequest unixASCII (readyGlobals "  scanned text  ")
               (sampleJobEnv (Some (2 * Second))) [x89; x50]%byte "page.png" emptyWorld))
  = "scanned text".
Proof.
  destruct (@successful_text_normalized unixASCII "  scanned text  ")
    as (_ & Htrim & _ & _ & Hreturned & _).
  rewrite (Hreturned (readyGlobals "  scanned text  ") (sampleJobEnv (Some (2 * Second)))
             [x89; x50]%byte "page.png" emptyWorld
             (snd (writeImageFileOptimized obligingOS
                     (tempFileName 1700000000123456789 "page.png")
                     [x89; x50]%byte emptyWorld))
             (stubEngine "  scanned text  ") (2 * Second)).
  - rewrite Htrim.
    + vm_compute. reflexivity.
    + vm_compute. discriminate.
  - reflexivity.
  - vm_compute. reflexivity.
  - vm_compute. reflexivity.
  - reflexivity.
  - vm_compute. reflexivity.
Defined.

(** ** The handler, one request at a time *)

(** C6: while the engine is unavailable ([tesseractFound] false or
    [ocrClient] nil) every upload (a POST) is answered at once with the
    fixed "not configured" response, status 503; no channel is made and
    nothing is enqueued. *)
Theorem engine_unavailable_fails_fast `{GoPlatform} (g : Globals) (env : HandlerEnv)
  (r : Request) :
  Method r = "POST" ->
  tesseractFound g = false \/ ocrClient g = None ->
  uploadHandler g env r = (notConfigured, []) /\
  status notConfigured = 503 /\
  body notConfigured = Raw (errorJSON
    "Tesseract OCR not configured. Please visit /setup for installation instructions.").
Proof.
  intros HM Hdown. unfold uploadHandler. rewrite HM. simpl.
  destruct Hdown as [-> | ->]; simpl.
  - auto.
  - rewrite orb_true_r. auto.
Qed.

Lemma engine_unavailable_fails_fast_witness :
  @uploadHandler unixASCII {| ocrClient := None; tesseractFound := false |}
    (sampleHandlerEnv (Some 0) (Some 0) timeoutResponse) (sampleUpload "page.png")
  = (notConfigured, []).
Proof.
  apply (@engine_unavailable_fails_fast unixASCII).
  - reflexivity.
  - left. reflexivity.
Defined.

(** An upload that passes every synchronous check is a job at the first
    [select]. *)
Lemma uploadHandler_validated `{GoPlatform} (g : Globals) (env : HandlerEnv)
  (r : Request) (filename : string) (fileBytes : list Byte.byte) :
  Method r = "POST" ->
  tesseractFound g = true ->
  is_Some (ocrClient g) ->
  formParses r = true ->
  formFile r = Some (filename, Some fileBytes) ->
  isValidImageType filename = true ->
  uploadHandler g env r =
    let responseCh := newChan env in
    let req := {| ImageBytes := fileBytes; Filename := filename;
                  ResponseCh := responseCh |} in
    match selectWithTimer (poolRoomAfter env) tt admissionTimeout (tieAdmission env) with
    | Expired => (serviceBusy, [MakeChan responseCh 1])
    | Proceeded _ =>
        match selectWithTimer (replyAfter env) (reply env) resultTimeout (tieResult env) with
        | Proceeded result =>
            (renderResult filename result,
             [MakeChan responseCh 1; Enqueue req; ReceiveReply responseCh result])
        | Expired => (processingTimeout, [MakeChan responseCh 1; Enqueue req])
        end
    end.
Proof.
  intros HM Hfound Hclient Hparse Hfile Hvalid.
  unfold uploadHandler.
  rewrite HM, Hfound, Hparse, Hfile, Hvalid. simpl.
  rewrite bool_decide_eq_true_2 by exact Hclient. reflexivity.
Qed.

(** ** Writing the temporary file *)

Lemma bind_run {A B : Type} (m : M A) (k : A -> M B) (w : World) :
  bind m k w = k (fst (m w)) (snd (m w)).
Proof. unfold bind. destruct (m w). reflexivity. Qed.

Lemma take_all_of_length {A : Type} (n : nat) (l : list A) :
  length (take n l) = length l -> take n l = l.
Proof.
  intros Hlen. apply take_ge. rewrite length_take in Hlen. lia.
Qed.

(** [File.Write] reports no error only when every byte was taken. *)
Lemma fileWrite_ok (o : OS) (name : string) (b : list Byte.byte) (w : World) :
  snd (fst (fileWrite o name b w)) = None ->
  fst (fst (fileWrite o name b w)) = length b /\
  fs (snd (fileWrite o name b w)) = <[name := (default [] (fs w !! name) ++ b)%list]> (fs w).
Proof.
  unfold fileWrite, bind, syscall, readFile, setFile, ret. simpl.
  destruct (rawWrite o name b) as [n e]. simpl.
  destruct e as [msg|]; [discriminate|].
  destruct (Nat.eqb_spec (length (take n b)) (length b)) as [Heq|]; [|discriminate].
  intros _. rewrite (take_all_of_length _ _ Heq). auto.
Qed.

(** Both branches hand the same bytes to one [File.Write] and return its
    error; the pooled buffer only passes through [bufferPool]. *)
Lemma writeLarge_as_writeSmall (o : OS) (filename : string) (data : list Byte.byte)
  (w : World) :
  data <> [] ->
  fst (writeLarge o filename data w) = fst (writeSmall o filename data w) /\
  fs (snd (writeLarge o filename data w)) = fs (snd (writeSmall o filename data w)) /\
  trace (snd (writeLarge o filename data w)) = trace (snd (writeSmall o filename data w)).
Proof.
  intros Hne.
  unfold writeLarge, writeSmall, bufferWriteTo, bufferWrite, emptyBuffer.
  cbn [buf off]. rewrite app_nil_l, drop_0.
  assert (Hpos : (0 <? length data)%nat = true).
  { destruct data; [congruence | reflexivity]. }
  rewrite Hpos.
  unfold bind, poolGet, fileWrite, bind, syscall, readFile, setFile, ret, poolPut.
  destruct (bufferPool w) as [|cap rest]; simpl;
    destruct (rawWrite o filename data) as [n e]; simpl;
    destruct e as [msg|]; simpl; auto;
    destruct (Nat.eqb_spec (length (take n data)) (length data)); simpl; auto.
Qed.

(** The two routines agree on the error and on the files. *)
Lemma writeImageFileOptimized_as_plain (o : OS) (filename : string)
  (data : list Byte.byte) (w : World) :
  fst (writeImageFileOptimized o filename data w) = fst (writePlain o filename data w) /\
  fs (snd (writeImageFileOptimized o filename data w))
    = fs (snd (writePlain o filename data w)).
Proof.
  unfold writeImageFileOptimized, writePlain. rewrite !bind_run.
  destruct (osCreate o filename w) as [[e|] w1]; cbn [fst snd]; [auto|].
  change (do r <- fileWrite o filename data; ret (snd r))
    with (writeSmall o filename data).
  destruct (Z.ltb_spec (32 * 1024) (Z.of_nat (length data))) as [Hbig|Hsmall].
  - assert (Hne : data <> []) by (destruct data; simpl in Hbig; [lia | congruence]).
    destruct (writeLarge_as_writeSmall o filename data w1 Hne) as (He & Hf & _).
    exact (conj He Hf).
  - auto.
Qed.

(** A write that reports no error leaves exactly [data] in the file. *)
Lemma writeImageFileOptimized_content (o : OS) (filename : string)
  (data : list Byte.byte) (w : World) :
  fst (writeImageFileOptimized o filename data w) = None ->
  fs (snd (writeImageFileOptimized o filename data w)) !! filename = Some data.
Proof.
  destruct (writeImageFileOptimized_as_plain o filename data w) as [He Hf].
  rewrite He, Hf. clear He Hf.
  unfold writePlain. rewrite bind_run.
  unfold osCreate, syscall, setFile. rewrite !bind_run. cbn [fst snd].
  destruct (createFails o filename) as [e|]; [discriminate|].
  rewrite !bind_run. cbn [fst snd ret fs trace bufferPool].
  intros Herr. rewrite bind_run in Herr |- *. cbn [ret fst snd] in Herr |- *.
  match type of Herr with
  | snd (fst (fileWrite _ _ _ ?w1)) = None =>
      destruct (fileWrite_ok o filename data w1 Herr) as [_ ->]
  end.
  cbn [fs]. rewrite lookup_insert_eq. f_equal.
  rewrite lookup_insert_eq. reflexivity.
Qed.

(** C10: [writeImageFileOptimized] does what the plain create-and-write
    does, whatever the payload's size: same error, same files; the branch
    for large payloads and the branch for small ones agree on every
    non-empty payload; and whenever it reports no error the file holds
    exactly [data]. *)
Theorem optimized_write_is_plain_write (o : OS) (filename : string)
  (data : list Byte.byte) (w : World) :
  (fst (writeImageFileOptimized o filename data w) = fst (writePlain o filename data w) /\
   fs (snd (writeImageFileOptimized o filename data w))
     = fs (snd (writePlain o filename data w))) /\
  (data <> [] ->
   fst (writeLarge o filename data w) = fst (writeSmall o filename data w) /\
   fs (snd (writeLarge o filename data w)) = fs (snd (writeSmall o filename data w))) /\
  (fst (writeImageFileOptimized o filename data w) = None ->
   fs (snd (writeImageFileOptimized o filename data w)) !! filename = Some data).
Proof.
  split; [apply writeImageFileOptimized_as_plain|]. split.
  - intros Hne. destruct (writeLarge_as_writeSmall o filename data w Hne) as (He & Hf & _).
    auto.
  - apply writeImageFileOptimized_content.
Qed.

Lemma optimized_write_is_plain_write_witness :
  fs (snd (writeImageFileOptimized obligingOS "temp_1_page.png" [x89; x50]%byte emptyWorld))
    !! "temp_1_page.png" = Some [x89; x50]%byte.
Proof.
  apply (optimized_write_is_plain_write obligingOS "temp_1_page.png" [x89; x50]%byte
           emptyWorld).
  vm_compute. reflexivity.
Defined.

(** ** The temporary file is removed once *)

Lemma removals_app (name : string) (l1 l2 : list Syscall) :
  removals name (l1 ++ l2) = (removals name l1 + removals name l2)%nat.
Proof. unfold removals. rewrite filter_app, length_app. reflexivity. Qed.

Lemma removals_one (name : string) : removals name [SysRemove name] = 1%nat.
Proof.
  unfold removals. rewrite filter_cons_True; [reflexivity|].
  simpl. apply String.eqb_refl.
Qed.

Lemma osCreate_trace (o : OS) (name : string) (w : World) :
  trace (snd (osCreate o name w)) = (trace w ++ [SysCreate name])%list.
Proof.
  unfold osCreate, syscall, setFile. rewrite bind_run. cbn [fst snd].
  destruct (createFails o name); [reflexivity|].
  rewrite bind_run. reflexivity.
Qed.

Lemma fileWrite_trace (o : OS) (name : string) (b : list Byte.byte) (w : World) :
  trace (snd (fileWrite o name b w)) = (trace w ++ [SysWrite name b])%list.
Proof.
  unfold fileWrite, syscall, readFile, setFile. rewrite bind_run. cbn [fst snd].
  destruct (rawWrite o name b) as [n e]. rewrite !bind_run. reflexivity.
Qed.

Lemma bufferWriteTo_trace (o : OS) (b : Buffer) (name : string) (w : World) :
  trace (snd (bufferWriteTo o b name w)) = trace w \/
  trace (snd (bufferWriteTo o b name w))
    = (trace w ++ [SysWrite name (drop (off b) (buf b))])%list.
Proof.
  unfold bufferWriteTo.
  destruct (0 <? length (drop (off b) (buf b)))%nat; [right | left; reflexivity].
  rewrite bind_run.
  pose proof (fileWrite_trace o name (drop (off b) (buf b)) w) as Hw.
  destruct (fileWrite o name (drop (off b) (buf b)) w) as [[m e] w'].
  cbn [fst snd] in *.
  destruct e as [msg|]; [exact Hw|].
  destruct (negb (m =? length (drop (off b) (buf b)))%nat); exact Hw.
Qed.

Lemma poolGet_trace (w : World) : trace (snd (poolGet w)) = trace w.
Proof. unfold poolGet. destruct (bufferPool w); reflexivity. Qed.

Lemma writeLarge_trace (o : OS) (filename : string) (data : list Byte.byte) (w : World) :
  trace (snd (writeLarge o filename data w)) = trace w \/
  trace (snd (writeLarge o filename data w)) = (trace w ++ [SysWrite filename data])%list.
Proof.
  unfold writeLarge, poolPut. rewrite !bind_run. cbn [fst snd ret trace].
  destruct (bufferWriteTo_trace o (bufferWrite emptyBuffer data) filename (snd (poolGet w)))
    as [Ht | Ht]; rewrite Ht, poolGet_trace; [left; reflexivity | right].
  unfold bufferWrite, emptyBuffer. cbn [buf off]. rewrite app_nil_l, drop_0. reflexivity.
Qed.

(** Writing the temporary file calls [os.Create] and [File.Write] only. *)
Lemma writeImageFileOptimized_removals (o : OS) (filename : string)
  (data : list Byte.byte) (w : World) (name : string) :
  removals name (trace (snd (writeImageFileOptimized o filename data w)))
  = removals name (trace w).
Proof.
  unfold writeImageFileOptimized. rewrite bind_run.
  pose proof (osCreate_trace o filename w) as Hc.
  destruct (osCreate o filename w) as [[e|] w1]; cbn [fst snd] in *.
  - unfold ret. cbn [snd]. rewrite Hc, removals_app. unfold removals. simpl. lia.
  - assert (Hstep : forall w2, trace w2 = trace w1 \/
                               trace w2 = (trace w1 ++ [SysWrite filename data])%list ->
                               removals name (trace w2) = removals name (trace w)).
    { intros w2 [-> | ->]; rewrite Hc, ?removals_app; unfold removals; simpl; lia. }
    destruct (32 * 1024 <? Z.of_nat (length data)); apply Hstep.
    + apply writeLarge_trace.
    + unfold writeSmall. rewrite bind_run. cbn [ret snd].
      right. apply fileWrite_trace.
Qed.

Lemma cleanup_trace (o : OS) (tempFile : string) (w : World) :
  exists logged, trace (snd (cleanup o tempFile w))
                 = (trace w ++ SysRemove tempFile :: logged)%list
                 /\ removals tempFile logged = 0%nat.
Proof.
  unfold cleanup, osRemove, readFile, setFile, logPrintf.
  rewrite !bind_run. cbn [syscall fst snd fs trace].
  destruct (fs w !! tempFile) as [content|]; cbn [fst snd ret].
  - destruct (removeFails o tempFile) as [e|]; rewrite ?bind_run; cbn [fst snd ret trace].
    + eexists. cbn [syscall snd trace]. rewrite <- app_assoc. split; reflexivity.
    + exists []. split; reflexivity.
  - eexists. cbn [syscall snd trace]. rewrite <- app_assoc. split; reflexivity.
Qed.

(** A removal the operating system lets through leaves no file behind. *)
Lemma cleanup_removes (o : OS) (tempFile : string) (w : World) :
  removeFails o tempFile = None ->
  fs (snd (cleanup o tempFile w)) !! tempFile = None.
Proof.
  intros Hrm. unfold cleanup, osRemove, syscall, readFile, setFile, logPrintf.
  rewrite !bind_run. cbn [fst snd fs trace].
  destruct (fs w !! tempFile) as [content|] eqn:Hpresent; cbn [fst snd ret].
  - rewrite Hrm. rewrite !bind_run. cbn [fst snd ret fs]. apply lookup_delete_eq.
  - cbn [fs]. exact Hpresent.
Qed.

(** A removal the operating system refuses is logged and changes no file. *)
Lemma cleanup_failure_logged (o : OS) (tempFile e : string) (w : World) :
  is_Some (fs w !! tempFile) ->
  removeFails o tempFile = Some e ->
  trace (snd (cleanup o tempFile w))
  = (trace w ++ [SysRemove tempFile;
                 SysLog ("Warning: failed to remove temporary file "
                         ++ tempFile ++ ": " ++ e)])%list /\
  fs (snd (cleanup o tempFile w)) = fs w.
Proof.
  intros [content Hpresent] Hrm.
  unfold cleanup, osRemove, readFile, setFile, logPrintf.
  rewrite !bind_run. cbn [syscall fst snd fs trace].
  rewrite Hpresent, Hrm. cbn [fst snd ret syscall trace fs].
  rewrite <- app_assoc. split; reflexivity.
Qed.

(** C4: once the temporary file is written, the routine calls
    [os.Remove] on it exactly once before it returns, whether the engine
    answered, failed or ran past the deadline; the Result is the same
    whatever [os.Remove] does; a removal that goes through leaves no file
    behind, one that fails is logged and nothing more. *)
Theorem temp_file_removed_once `{GoPlatform} (g : Globals) (env : JobEnv)
  (imageBytes : list Byte.byte) (filename : string) (w w1 : World) (client : Ocr) :
  ocrClient g = Some client ->
  writeImageFileOptimized (os env) (tempFileName (unixNano env) filename) imageBytes w
    = (None, w1) ->
  let tempFile := tempFileName (unixNano env) filename in
  let sent := engineResult (TextFromImageFile client (fs w1) tempFile) in
  let out := processOCRRequest g env imageBytes filename w in
  removals tempFile (trace (snd out)) = (removals tempFile (trace w) + 1)%nat /\
  (fst out = sent \/ fst out = timeoutResponse) /\
  (forall after tie,
      removals tempFile
        (trace (snd (processOCRRequest g (withEngineTiming after tie env)
                       imageBytes filename w)))
      = (removals tempFile (trace w) + 1)%nat) /\
  (forall rf, fst (processOCRRequest g (withRemove rf env) imageBytes filename w)
              = fst out) /\
  (removeFails (os env) tempFile = None -> fs (snd out) !! tempFile = None) /\
  (forall e, removeFails (os env) tempFile = Some e ->
             trace (snd out)
             = (trace w1 ++ [SysRemove tempFile;
                             SysLog ("Warning: failed to remove temporary file "
                                     ++ tempFile ++ ": " ++ e)])%list /\
             fs (snd out) = fs w1).
Proof.
  intros Hc Hw tempFile sent out. subst out.
  assert (Hcount : forall env',
             unixNano env' = unixNano env -> os env' = os env ->
             removals tempFile (trace (snd (processOCRRequest g env' imageBytes filename w)))
             = (removals tempFile (trace w) + 1)%nat).
  { intros env' Hn Ho.
    assert (Hw' : writeImageFileOptimized (os env') (tempFileName (unixNano env') filename)
                    imageBytes w = (None, w1)) by (rewrite Hn, Ho; exact Hw).
    rewrite (processOCRRequest_written g env' imageBytes filename w w1 client Hc Hw').
    cbn [snd]. rewrite Hn, Ho. fold tempFile.
    destruct (cleanup_trace (os env) tempFile w1) as (logged & -> & Hlogged).
    rewrite removals_app.
    change (SysRemove tempFile :: logged) with ([SysRemove tempFile] ++ logged)%list.
    rewrite removals_app, Hlogged.
    pose proof (writeImageFileOptimized_removals (os env) tempFile imageBytes w tempFile) as Hwr.
    fold tempFile in Hw. rewrite Hw in Hwr. cbn [snd] in Hwr. rewrite Hwr.
    rewrite removals_one. lia. }
  split; [apply Hcount; reflexivity|].
  rewrite (processOCRRequest_written g env imageBytes filename w w1 client Hc Hw).
  cbn [fst snd]. fold tempFile. fold sent.
  split.
  { destruct (selectWithTimer_cases (engineSendsAfter env) sent engineDeadline
                (selectTie env)) as [-> | ->]; [left | right]; reflexivity. }
  split; [intros after tie; apply Hcount; reflexivity|].
  split.
  - intros rf.
    rewrite (processOCRRequest_written g (withRemove rf env) imageBytes filename w w1
               client Hc Hw).
    reflexivity.
  - split; [apply cleanup_removes|].
    intros e Hrm. apply cleanup_failure_logged; [|exact Hrm].
    pose proof (writeImageFileOptimized_content (os env) tempFile imageBytes w) as Hcontent.
    fold tempFile in Hw. rewrite Hw in Hcontent. cbn [fst snd] in Hcontent.
    rewrite (Hcontent eq_refl). eauto.
Qed.

Lemma temp_file_removed_once_witness :
  removals "temp_1700000000123456789_page.png"
    (trace (snd (@processOCRRequest unixASCII (readyGlobals "text")
                   (sampleJobEnv None) [x89; x50]%byte "page.png" emptyWorld)))
  = 1%nat.
Proof.
  apply (@temp_file_removed_once unixASCII (readyGlobals "text") (sampleJobEnv None)
           [x89; x50]%byte "page.png" emptyWorld
           (snd (writeImageFileOptimized obligingOS
                   "temp_1700000000123456789_page.png" [x89; x50]%byte emptyWorld))
           (stubEngine "text")).
  - reflexivity.
  - vm_compute. reflexivity.
Defined.

(** ** The goroutines, interleaved *)

Lemma sum_list_with_insert {A : Type} (f : A -> nat) (l : list A) (i : nat) (x y : A) :
  l !! i = Some x ->
  (sum_list_with f (<[i := y]> l) + f x = sum_list_with f l + f y)%nat.
Proof.
  revert i. induction l as [|a l IH]; intros [|i] Hl; simpl in *; try discriminate.
  - injection Hl as ->. lia.
  - specialize (IH i Hl). lia.
Qed.

Lemma ind_le (b : bool) : (ind b <= 1)%nat.
Proof. destruct b; simpl; lia. Qed.

Lemma ind_eqb_refl (c : nat) : ind (c =? c)%nat = 1%nat.
Proof. rewrite Nat.eqb_refl. reflexivity. Qed.

Lemma ind_eqb_ne (a c : nat) : a <> c -> ind (a =? c)%nat = 0%nat.
Proof. intros Hne. destruct (Nat.eqb_spec a c); [contradiction | reflexivity]. Qed.

Lemma run_app `{GoPlatform} (s : System) (l1 l2 : list Action) :
  run s (l1 ++ l2) = match run s l1 with
                     | Some s1 => run s1 l2
                     | None => None
                     end.
Proof.
  revert s. induction l1 as [|a l1 IH]; intros s; simpl; [reflexivity|].
  destruct (step s a); [apply IH | reflexivity].
Qed.

Lemma reachable_step `{GoPlatform} (s s' : System) (a : Action) :
  reachable s -> step s a = Some s' -> reachable s'.
Proof.
  intros [sched Hrun] Hstep. exists (sched ++ [a])%list.
  rewrite run_app, Hrun. simpl. rewrite Hstep. reflexivity.
Qed.

(** A property of the initial state that every step preserves holds in
    every reachable state. *)
Lemma invariant_reachable `{GoPlatform} (P : System -> Prop) :
  P initial ->
  (forall s a s', P s -> step s a = Some s' -> P s') ->
  forall s, reachable s -> P s.
Proof.
  intros Hinit Hstep s [sched Hrun].
  revert Hrun. generalize initial Hinit. 
  induction sched as [|a sched IH]; intros s0 H0 Hrun; simpl in Hrun.
  - injection Hrun as <-. exact H0.
  - destruct (step s0 a) as [s1|] eqn:Hs; [|discriminate].
    exact (IH s1 (Hstep _ _ _ H0 Hs) Hrun).
Qed.

(** Cases of a step: which goroutine moved, from where. *)
Ltac step_cases H :=
  match type of H with
  | step ?s ?a = Some _ => destruct a; cbn [step] in H
  end;
  unfold sendOn, recvFrom, chanSend, chanRecv, makeChan, RLock, RUnlock in H;
  repeat match type of H with
         | context [match ?x with _ => _ end] =>
             lazymatch x with
             | context [match _ with _ => _ end] => fail
             | _ => destruct x eqn:?; try discriminate H
             end
         end;
  try (injection H as <-);
  cbn [setHandler setWorker setEngine setMutex setPool setChan addHandler addEngine
       ocrMutex ocrWorkerPool chans handlers workers engines chanLog fst snd
       readerCount writerHeld] in *.

(** The effect of replacing one element on a sum over the list. *)
Ltac account :=
  repeat rewrite sum_list_with_app;
  repeat match goal with
         | Hl : ?l !! ?i = Some ?x |- context [sum_list_with ?f (<[?i := ?y]> ?l)] =>
             let E := fresh "E" in
             pose proof (sum_list_with_insert f l i x y Hl) as E;
             cbn in E;
             generalize dependent (sum_list_with f (<[i := y]> l)); intros
         end;
  cbn [sum_list_with].

Lemma mutexInv_step `{GoPlatform} (s s' : System) (a : Action) :
  mutexInv s -> step s a = Some s' -> mutexInv s'.
Proof.
  intros [Hcount Hw] Hstep. unfold mutexInv, readLockHolders in *.
  step_cases Hstep; try (split; [exact Hcount | exact Hw]);
    account; cbn [holding] in *; split; congruence || lia.
Qed.

Ltac weigh :=
  cbn [handlerSends workerSends engineSends handlerReceives workerReceives
       sentOn receivedFrom] in *;
  unfold refersTo in *;
  cbn [ResponseCh Filename ImageBytes] in *.

Ltac split_eqb :=
  repeat match goal with
         | |- context [(?a =? ?b)%nat] => destruct (Nat.eqb_spec a b)
         | H : context [(?a =? ?b)%nat] |- _ => destruct (Nat.eqb_spec a b)
         end;
  cbn [ind] in *.

(** What is known of the buffers found by the lookups at hand. *)
Ltac known_buffers Hbuf :=
  repeat match goal with
         | Hl : chans _ !! ?c' = Some ?b |- _ =>
             first [ pose proof (Hbuf b Hl) | subst; pose proof (Hbuf b Hl) | idtac ];
             pose proof (lookup_lt_Some _ _ _ Hl);
             clear Hl
         end.

Ltac buffer_cases :=
  let buffer := fresh "buffer" in
  let Hb := fresh "Hb" in
  intros buffer Hb;
  first
    [ apply lookup_app_Some in Hb as [Hb | [Hge Hb]];
      [ | apply list_lookup_singleton_Some in Hb as [Hidx <-] ]
    | apply list_lookup_insert_Some in Hb as [(<- & <- & Hlt) | [Hne Hb]]
    | idtac ].

Lemma channelInv_step `{GoPlatform} (s s' : System) (a : Action) :
  channelInv s -> step s a = Some s' -> channelInv s'.
Proof.
  intros Hinv Hstep c. destruct (Hinv c) as (Hs & Hr & Hfresh & Hbuf). clear Hinv.
  unfold senders, receivers, sends, receipts in *.
  step_cases Hstep.
  all: repeat match goal with
              | Hq : ocrWorkerPool _ = _ :: _ |- _ => rewrite Hq in *; clear Hq
              end.
  all: account; weigh; cbn [sum_list_with] in *.
  all: rewrite ?length_app, ?length_insert; cbn [length].
  all: split; [|split; [|split]].
  all: try buffer_cases.
  all: split_eqb; try subst c.
  all: known_buffers Hbuf.
  all: rewrite ?length_app in *; cbn [length] in *.
  all: lia.
Qed.

Lemma mutexInv_initial : mutexInv initial.
Proof. split; reflexivity. Qed.

Lemma channelInv_initial : channelInv initial.
Proof.
  intros c. unfold senders, receivers, sends, receipts. cbn.
  repeat split; try lia. intros buffer Hb. rewrite lookup_nil in Hb. discriminate.
Qed.

Lemma reachable_mutexInv `{GoPlatform} (s : System) : reachable s -> mutexInv s.
Proof.
  apply (invariant_reachable mutexInv); [exact mutexInv_initial|].
  intros s0 a s1. apply mutexInv_step.
Qed.

Lemma reachable_channelInv `{GoPlatform} (s : System) : reachable s -> channelInv s.
Proof.
  apply (invariant_reachable channelInv); [exact channelInv_initial|].
  intros s0 a s1. apply channelInv_step.
Qed.

(** *** The read lock *)

(** A write lock, which the program never takes on [ocrMutex], would keep
    every other goroutine out. *)
Lemma write_lock_excludes (m m' : RWMutex) :
  Lock m = Some m' -> RLock m' = None /\ Lock m' = None.
Proof.
  unfold Lock, RLock. destruct (writerHeld m || negb (readerCount m =? 0)%nat);
    [discriminate|].
  intros Heq. injection Heq as <-. split; reflexivity.
Qed.

(** A read lock keeps no other reader out. *)
Lemma read_lock_shared (m m' : RWMutex) :
  RLock m = Some m' -> is_Some (RLock m') /\ Lock m' = None.
Proof.
  unfold RLock, Lock. destruct (writerHeld m); [discriminate|].
  intros Heq. injection Heq as <-. split; [eexists; reflexivity | reflexivity].
Qed.

Lemma calling_le_holding (l : list EnginePc) :
  (sum_list_with calling l <= sum_list_with holding l)%nat.
Proof.
  induction l as [|pc l IH]; simpl; [lia|].
  destruct pc; simpl; lia.
Qed.

(** C1 (as the code has it): every goroutine inside [TextFromImageFile]
    holds a read lock on [ocrMutex], taken right before the call and given
    back right after it; the lock is never write-locked, so [RLock] never
    waits, and the number of engine calls in flight is bounded by the
    number of read-lock holders, not by one. *)
Theorem engine_calls_hold_read_lock `{GoPlatform} (s : System) :
  reachable s ->
  readerCount (ocrMutex s) = readLockHolders s /\
  writerHeld (ocrMutex s) = false /\
  (inFlight s <= readerCount (ocrMutex s))%nat /\
  (forall e tempFile resultCh,
      engines s !! e = Some (ERLock tempFile resultCh) ->
      exists s', step s (EngineRLock e) = Some s' /\
                 engines s' !! e = Some (ECalling tempFile resultCh) /\
                 inFlight s' = S (inFlight s)).
Proof.
  intros Hreach. destruct (reachable_mutexInv s Hreach) as [Hcount Hw].
  split; [exact Hcount|]. split; [exact Hw|]. split.
  - rewrite Hcount. apply calling_le_holding.
  - intros e tempFile resultCh He. cbn [step]. rewrite He.
    unfold RLock. rewrite Hw. eexists. split; [reflexivity|].
    cbn [setEngine setMutex engines]. split.
    + apply list_lookup_insert_eq. eapply lookup_lt_Some. exact He.
    + unfold inFlight. cbn [engines].
      pose proof (sum_list_with_insert calling (engines s) e _
                    (ECalling tempFile resultCh) He) as E.
      cbn [calling] in E. cbn [setEngine setMutex engines]. lia.
Qed.

Lemma engine_calls_hold_read_lock_witness :
  exists s, @run unixASCII initial overlapSchedule = Some s /\
            inFlight s = 2%nat /\ readerCount (ocrMutex s) = 2%nat.
Proof.
  eexists. split; [vm_compute; reflexivity|].
  split; [vm_compute; reflexivity|].
  refine (proj1 (@engine_calls_hold_read_lock unixASCII _ _)).
  exists overlapSchedule. vm_compute. reflexivity.
Defined.

(** C1 with a bound of one does not hold: after [overlapSchedule] two
    workers' engine calls are executing at once. *)
Lemma engine_calls_overlap :
  exists s, @run unixASCII initial overlapSchedule = Some s /\
            @reachable unixASCII s /\
            engines s !! 0%nat = Some (ECalling "temp_1700000000000000001_a.png" 2) /\
            engines s !! 1%nat = Some (ECalling "temp_1700000000000000002_b.png" 3) /\
            inFlight s = 2%nat /\ ~ (inFlight s <= 1)%nat.
Proof.
  destruct (@run unixASCII initial overlapSchedule) as [s|] eqn:Hrun;
    [|vm_compute in Hrun; discriminate].
  exists s. split; [reflexivity|]. split; [exists overlapSchedule; exact Hrun|].
  vm_compute in Hrun. injection Hrun as <-.
  repeat split; try reflexivity. vm_compute. lia.
Qed.

(** *** The reply channel *)

Lemma sum_list_with_lookup {A : Type} (f : A -> nat) (l : list A) (i : nat) (x : A) :
  l !! i = Some x -> (f x <= sum_list_with f l)%nat.
Proof.
  intros Hl. apply sum_list_with_in. eapply list_elem_of_lookup_2. exact Hl.
Qed.

(** A channel somebody will still send on exists and is empty. *)
Lemma pending_send_has_room (s : System) (c : nat) :
  channelInv s -> (1 <= senders c s)%nat ->
  chans s !! c = Some [] /\ sends c s = 0%nat.
Proof.
  intros Hinv Hsender. destruct (Hinv c) as (Hs & _ & Hfresh & Hbuf).
  assert (Hsent : sends c s = 0%nat) by lia.
  split; [|exact Hsent].
  destruct (chans s !! c) as [buffer|] eqn:Hc.
  - specialize (Hbuf buffer eq_refl). destruct buffer; [reflexivity|].
    simpl in Hbuf. lia.
  - apply lookup_ge_None in Hc. specialize (Hfresh Hc). lia.
Qed.

Lemma worker_reply_is_sender (s : System) (w : nat) (req : OCRRequest)
  (result : OCRResponse) :
  workers s !! w = Some (WReply req result) -> (1 <= senders (ResponseCh req) s)%nat.
Proof.
  intros Hw.
  pose proof (sum_list_with_lookup (workerSends (ResponseCh req)) _ _ _ Hw) as Hle.
  cbn [workerSends] in Hle. unfold refersTo in Hle. rewrite ind_eqb_refl in Hle.
  unfold senders. lia.
Qed.

(** C9: each upload gets a channel of capacity 1 that nobody knew before;
    no channel ever sees more than one send; and a worker standing at
    [req.ResponseCh <- result] finds the channel empty, so the send goes
    through at once, whatever the handler has done in the meantime. *)
Theorem reply_never_blocks `{GoPlatform} (s : System) :
  reachable s ->
  (forall c, (sends c s <= 1)%nat) /\
  (forall w req result,
      workers s !! w = Some (WReply req result) ->
      chans s !! ResponseCh req = Some [] /\
      sends (ResponseCh req) s = 0%nat /\
      exists s', step s (Reply w) = Some s' /\
                 workers s' !! w = Some WIdle /\
                 chans s' !! ResponseCh req = Some [result] /\
                 sends (ResponseCh req) s' = 1%nat) /\
  (forall filename fileBytes,
      exists s', step s (Arrive filename fileBytes) = Some s' /\
                 handlers s' !! length (handlers s)
                 = Some (HAdmit {| ImageBytes := fileBytes; Filename := filename;
                                   ResponseCh := length (chans s) |}) /\
                 chans s !! length (chans s) = None /\
                 chans s' !! length (chans s) = Some [] /\
                 senders (length (chans s)) s = 0%nat /\
                 receivers (length (chans s)) s = 0%nat /\
                 responseCapacity = 1%nat).
Proof.
  intros Hreach. pose proof (reachable_channelInv s Hreach) as Hinv.
  split; [|split].
  - intros c. destruct (Hinv c) as (Hs & _). lia.
  - intros w req result Hw.
    destruct (pending_send_has_room s (ResponseCh req) Hinv
                (worker_reply_is_sender s w req result Hw)) as [Hempty Hsent].
    split; [exact Hempty|]. split; [exact Hsent|].
    cbn [step]. rewrite Hw. unfold sendOn. rewrite Hempty. cbn.
    eexists. split; [reflexivity|].
    cbn [setWorker setChan workers chans]. split; [|split].
    + apply list_lookup_insert_eq. eapply lookup_lt_Some. exact Hw.
    + apply list_lookup_insert_eq. eapply lookup_lt_Some. exact Hempty.
    + unfold sends in *. cbn [setWorker setChan chanLog].
      rewrite sum_list_with_app. cbn [sum_list_with sentOn].
      rewrite ind_eqb_refl. lia.
  - intros filename fileBytes. cbn [step makeChan]. eexists. split; [reflexivity|].
    cbn [addHandler handlers chans].
    destruct (Hinv (length (chans s))) as (_ & _ & Hfresh & _).
    destruct (Hfresh (le_n _)) as (Hs0 & Hr0 & _).
    repeat split.
    + rewrite lookup_app_r by lia. rewrite Nat.sub_diag. reflexivity.
    + apply lookup_ge_None. lia.
    + rewrite lookup_app_r by lia. rewrite Nat.sub_diag. reflexivity.
    + exact Hs0.
    + exact Hr0.
Qed.

Lemma reply_never_blocks_witness :
  exists s s',
    @run unixASCII initial abandonedSchedule = Some s /\
    handlers s !! 0%nat = Some (HDone processingTimeout) /\
    @step unixASCII s (Reply 0) = Some s' /\
    workers s' !! 0%nat = Some WIdle.
Proof.
  eexists.
  assert (Hrun : @run unixASCII initial abandonedSchedule = Some _)
    by (vm_compute; reflexivity).
  destruct (proj1 (proj2 (@reply_never_blocks unixASCII _ (ex_intro _ _ Hrun)))
              0%nat _ _ eq_refl) as (_ & _ & s' & Hstep & Hidle & _).
  exists s'. split; [exact Hrun|]. split; [reflexivity|].
  split; [exact Hstep | exact Hidle].
Defined.

(** *** Channels nobody reads, channels nobody writes *)

(** Once no goroutine may receive from a channel, none ever will. *)
Lemma no_receiver_step `{GoPlatform} (s s' : System) (a : Action) (c : nat) :
  (c < length (chans s))%nat -> receivers c s = 0%nat ->
  step s a = Some s' ->
  (c < length (chans s'))%nat /\ receivers c s' = 0%nat /\
  receipts c s' = receipts c s.
Proof.
  intros Hlt Hnone Hstep. unfold receivers, receipts in *.
  step_cases Hstep.
  all: account; weigh; cbn [sum_list_with] in *.
  all: rewrite ?length_app, ?length_insert; cbn [length].
  all: split_eqb; lia.
Qed.

(** Once no goroutine will send on a channel, none ever will. *)
Lemma no_sender_step `{GoPlatform} (s s' : System) (a : Action) (c : nat) :
  (c < length (chans s))%nat -> senders c s = 0%nat ->
  step s a = Some s' ->
  (c < length (chans s'))%nat /\ senders c s' = 0%nat /\ sends c s' = sends c s.
Proof.
  intros Hlt Hnone Hstep. unfold senders, sends in *.
  step_cases Hstep.
  all: repeat match goal with
              | Hq : ocrWorkerPool _ = _ :: _ |- _ => rewrite Hq in *; clear Hq
              end.
  all: account; weigh; cbn [sum_list_with] in *.
  all: rewrite ?length_app, ?length_insert; cbn [length].
  all: split_eqb; lia.
Qed.

Lemma no_receiver_run `{GoPlatform} (schedule : list Action) (s s' : System) (c : nat) :
  (c < length (chans s))%nat -> receivers c s = 0%nat ->
  run s schedule = Some s' ->
  receivers c s' = 0%nat /\ receipts c s' = receipts c s.
Proof.
  revert s. induction schedule as [|a schedule IH]; intros s Hlt Hnone Hrun;
    simpl in Hrun.
  - injection Hrun as <-. auto.
  - destruct (step s a) as [s1|] eqn:Hstep; [|discriminate].
    destruct (no_receiver_step s s1 a c Hlt Hnone Hstep) as (Hlt1 & Hnone1 & Heq1).
    destruct (IH s1 Hlt1 Hnone1 Hrun) as [Hr Hc]. split; [exact Hr | congruence].
Qed.

Lemma no_sender_run `{GoPlatform} (schedule : list Action) (s s' : System) (c : nat) :
  (c < length (chans s))%nat -> senders c s = 0%nat ->
  run s schedule = Some s' ->
  senders c s' = 0%nat /\ sends c s' = sends c s.
Proof.
  revert s. induction schedule as [|a schedule IH]; intros s Hlt Hnone Hrun;
    simpl in Hrun.
  - injection Hrun as <-. auto.
  - destruct (step s a) as [s1|] eqn:Hstep; [|discriminate].
    destruct (no_sender_step s s1 a c Hlt Hnone Hstep) as (Hlt1 & Hnone1 & Heq1).
    destruct (IH s1 Hlt1 Hnone1 Hrun) as [Hr Hc]. split; [exact Hr | congruence].
Qed.

Lemma reachable_run `{GoPlatform} (s s' : System) (schedule : list Action) :
  reachable s -> run s schedule = Some s' -> reachable s'.
Proof.
  intros [sched Hs] Hrun. exists (sched ++ schedule)%list.
  rewrite run_app, Hs. exact Hrun.
Qed.

(** A channel known to some goroutine has been made. *)
Lemma known_channel_exists (s : System) (c : nat) :
  channelInv s -> (1 <= senders c s + receivers c s)%nat -> (c < length (chans s))%nat.
Proof.
  intros Hinv Hknown. destruct (Hinv c) as (_ & _ & Hfresh & _).
  destruct (Nat.lt_ge_cases c (length (chans s))) as [Hlt|Hge]; [exact Hlt|].
  specialize (Hfresh Hge). lia.
Qed.

(** The engine goroutine is never held up: the read lock is free of
    writers, and its result channel has room. *)
Lemma engine_never_blocks `{GoPlatform} (s : System) (e : nat) :
  reachable s ->
  (forall tempFile rc, engines s !! e = Some (ERLock tempFile rc) ->
                       is_Some (step s (EngineRLock e))) /\
  (forall tempFile rc answer, engines s !! e = Some (ECalling tempFile rc) ->
                              is_Some (step s (EngineReturn e answer))) /\
  (forall answer rc, engines s !! e = Some (EReturned answer rc) ->
                     is_Some (step s (EngineRUnlock e))) /\
  (forall r rc, engines s !! e = Some (ESend r rc) ->
                exists s', step s (EngineSend e) = Some s' /\
                           chans s' !! rc = Some [r] /\
                           engines s' !! e = Some EExit).
Proof.
  intros Hreach.
  destruct (reachable_mutexInv s Hreach) as [Hcount Hw].
  pose proof (reachable_channelInv s Hreach) as Hinv.
  repeat split.
  - intros tempFile rc He. cbn [step]. rewrite He. unfold RLock. rewrite Hw. eauto.
  - intros tempFile rc answer He. cbn [step]. rewrite He. eauto.
  - intros answer rc He. cbn [step]. rewrite He. unfold RUnlock.
    pose proof (sum_list_with_lookup holding _ _ _ He) as Hle. cbn [holding] in Hle.
    unfold readLockHolders in Hcount.
    destruct (readerCount (ocrMutex s)); [lia | eauto].
  - intros r rc He.
    assert (Hsender : (1 <= senders rc s)%nat).
    { pose proof (sum_list_with_lookup (engineSends rc) _ _ _ He) as Hle.
      cbn [engineSends] in Hle. rewrite ind_eqb_refl in Hle. unfold senders. lia. }
    destruct (pending_send_has_room s rc Hinv Hsender) as [Hempty _].
    cbn [step]. rewrite He. unfold sendOn. rewrite Hempty. cbn.
    eexists. split; [reflexivity|]. cbn [setEngine setChan chans engines]. split.
    + apply list_lookup_insert_eq. eapply lookup_lt_Some. exact Hempty.
    + apply list_lookup_insert_eq. eapply lookup_lt_Some. exact He.
Qed.

(** *** The engine deadline *)

(** The worker's deadline leaves the engine goroutine where it is, and from
    then on nobody receives from the result channel. *)
Lemma deadline_abandons_result `{GoPlatform} (s : System) (wk : nat)
  (req : OCRRequest) (tempFile : string) (resultCh : nat) :
  reachable s ->
  workers s !! wk = Some (WSelect req tempFile resultCh) ->
  exists s',
    step s (Deadline wk) = Some s' /\
    workers s' !! wk = Some (WReply req timeoutResponse) /\
    engines s' = engines s /\ ocrMutex s' = ocrMutex s /\ chans s' = chans s /\
    forall schedule s'',
      run s' schedule = Some s'' ->
      receipts resultCh s'' = 0%nat /\
      (forall e r, engines s'' !! e = Some (ESend r resultCh) ->
                   exists s3, step s'' (EngineSend e) = Some s3 /\
                              chans s3 !! resultCh = Some [r]).
Proof.
  intros Hreach Hw. pose proof (reachable_channelInv s Hreach) as Hinv.
  cbn [step]. rewrite Hw. eexists. split; [reflexivity|].
  set (s' := setWorker wk (WReply req timeoutResponse) s).
  assert (Hstep : step s (Deadline wk) = Some s') by (cbn [step]; rewrite Hw; reflexivity).
  split; [apply list_lookup_insert_eq; eapply lookup_lt_Some; exact Hw|].
  split; [reflexivity|]. split; [reflexivity|]. split; [reflexivity|].
  pose proof (sum_list_with_lookup (workerReceives resultCh) _ _ _ Hw) as Hle.
  cbn [workerReceives] in Hle. rewrite ind_eqb_refl in Hle.
  destruct (Hinv resultCh) as (_ & Hr & _).
  assert (Hlt : (resultCh < length (chans s))%nat).
  { apply known_channel_exists; [exact Hinv|]. unfold receivers. lia. }
  assert (Hnone : receivers resultCh s' = 0%nat /\ receipts resultCh s' = 0%nat).
  { unfold receivers, receipts in *. subst s'. cbn [setWorker handlers workers chanLog].
    pose proof (sum_list_with_insert (workerReceives resultCh) (workers s) wk _
                  (WReply req timeoutResponse) Hw) as E.
    cbn [workerReceives] in E. rewrite ind_eqb_refl in E. lia. }
  destruct Hnone as [Hrecv Hrcpt].
  intros schedule s'' Hrun.
  destruct (no_receiver_run schedule s' s'' resultCh Hlt Hrecv Hrun) as [_ Hsame].
  split; [congruence|].
  intros e r He.
  assert (Hreach'' : reachable s'').
  { eapply reachable_run; [|exact Hrun]. eapply reachable_step; eassumption. }
  destruct (proj2 (proj2 (proj2 (engine_never_blocks s'' e Hreach''))) r resultCh He)
    as (s3 & Hs3 & Hbuf & _).
  exists s3. split; assumption.
Qed.

(** C2: when the engine's answer does not reach [resultCh] within the 30
    second deadline, the job routine returns the timeout Result (empty
    text, an error); the deadline leaves the engine goroutine untouched,
    its eventual send goes into a buffer nobody receives from; the
    handler's 35 second wait is the longer one, and a timeout Result that
    reaches the handler within the remaining 5 seconds is what it answers
    with. *)
Theorem engine_deadline_yields_timeout `{GoPlatform} (g : Globals) (env : JobEnv)
  (imageBytes : list Byte.byte) (filename : string) (w w1 : World) (client : Ocr) :
  ocrClient g = Some client ->
  writeImageFileOptimized (os env) (tempFileName (unixNano env) filename) imageBytes w
    = (None, w1) ->
  engineSendsAfter env = None \/
  (exists t, engineSendsAfter env = Some t /\ engineDeadline < t) ->
  fst (processOCRRequest g env imageBytes filename w)
    = {| Text := EmptyString; Err := Some "OCR processing timeout" |} /\
  (engineDeadline = 30 * Second /\ resultTimeout = 35 * Second /\
   engineDeadline < resultTimeout) /\
  (forall s wk req tempFile resultCh,
      reachable s ->
      workers s !! wk = Some (WSelect req tempFile resultCh) ->
      exists s',
        step s (Deadline wk) = Some s' /\
        workers s' !! wk = Some (WReply req timeoutResponse) /\
        engines s' = engines s /\ ocrMutex s' = ocrMutex s /\ chans s' = chans s /\
        forall schedule s'',
          run s' schedule = Some s'' ->
          receipts resultCh s'' = 0%nat /\
          (forall e r, engines s'' !! e = Some (ESend r resultCh) ->
                       exists s3, step s'' (EngineSend e) = Some s3 /\
                                  chans s3 !! resultCh = Some [r])) /\
  (forall henv r name fileBytes room lag,
      Method r = "POST" -> tesseractFound g = true -> formParses r = true ->
      formFile r = Some (name, Some fileBytes) -> isValidImageType name = true ->
      poolRoomAfter henv = Some room -> room < admissionTimeout ->
      replyAfter henv = Some (engineDeadline + lag) ->
      0 <= lag -> lag < resultTimeout - engineDeadline ->
      reply henv = fst (processOCRRequest g env imageBytes filename w) ->
      fst (uploadHandler g henv r)
      = {| status := 500; body := Raw (errorJSON "OCR failed: OCR processing timeout") |}).
Proof.
  intros Hc Hw Hlate.
  assert (Hresult : fst (processOCRRequest g env imageBytes filename w) = timeoutResponse).
  { rewrite (processOCRRequest_written g env imageBytes filename w w1 client Hc Hw).
    cbn [fst]. rewrite (selectWithTimer_late _ _ _ _ Hlate). reflexivity. }
  split; [exact Hresult|].
  split; [repeat split; reflexivity|].
  split; [intros s wk req tempFile resultCh; apply deadline_abandons_result|].
  intros henv r name fileBytes room lag HM Hfound Hparse Hfile Hvalid Hroom Hadm
         Hreply H0 Hlag Hr.
  assert (Hclient : is_Some (ocrClient g)) by (rewrite Hc; eauto).
  rewrite (uploadHandler_validated g henv r name fileBytes HM Hfound Hclient Hparse
             Hfile Hvalid).
  cbn zeta. rewrite Hroom, (selectWithTimer_early _ _ _ _ Hadm).
  rewrite Hreply, selectWithTimer_early by lia.
  rewrite Hr, Hresult. reflexivity.
Qed.

Lemma engine_deadline_yields_timeout_witness :
  fst (@processOCRRequest unixASCII (readyGlobals "late text")
         (sampleJobEnv (Some (31 * Second))) [x89; x50]%byte "page.png" emptyWorld)
  = {| Text := EmptyString; Err := Some "OCR processing timeout" |}.
Proof.
  apply (@engine_deadline_yields_timeout unixASCII (readyGlobals "late text")
           (sampleJobEnv (Some (31 * Second))) [x89; x50]%byte "page.png" emptyWorld
           (snd (writeImageFileOptimized obligingOS
                   "temp_1700000000123456789_page.png" [x89; x50]%byte emptyWorld))
           (stubEngine "late text")).
  - reflexivity.
  - vm_compute. reflexivity.
  - right. exists (31 * Second). split; [reflexivity | vm_compute; reflexivity].
Defined.

(** *** Admission *)

Lemma no_reference_in_pool (c : nat) (pool : list OCRRequest) :
  sum_list_with (refersTo c) pool = 0%nat ->
  Forall (fun q => ResponseCh q <> c) pool.
Proof.
  induction pool as [|q pool IH]; simpl; intros Hsum; constructor.
  - unfold refersTo in Hsum. destruct (Nat.eqb_spec (ResponseCh q) c); [simpl in Hsum; lia|].
    assumption.
  - apply IH. lia.
Qed.

(** A handler at the first [select] still owns its job: the job is not in
    the queue, a full queue keeps it out, and once the timer has fired it
    never gets in. *)
Lemma admission_expiry_keeps_job_out `{GoPlatform} (s : System) (h : nat)
  (req : OCRRequest) :
  reachable s ->
  handlers s !! h = Some (HAdmit req) ->
  (length (ocrWorkerPool s) = poolCapacity -> step s (Admit h) = None) /\
  Forall (fun q => ResponseCh q <> ResponseCh req) (ocrWorkerPool s) /\
  exists s',
    step s (AdmitExpire h) = Some s' /\
    handlers s' !! h = Some (HDone serviceBusy) /\
    ocrWorkerPool s' = ocrWorkerPool s /\
    forall schedule s'',
      run s' schedule = Some s'' ->
      Forall (fun q => ResponseCh q <> ResponseCh req) (ocrWorkerPool s'').
Proof.
  intros Hreach Hh. pose proof (reachable_channelInv s Hreach) as Hinv.
  set (c := ResponseCh req).
  pose proof (sum_list_with_lookup (handlerSends c) _ _ _ Hh) as Hle.
  cbn [handlerSends] in Hle. unfold refersTo in Hle. subst c.
  rewrite ind_eqb_refl in Hle. set (c := ResponseCh req) in *.
  destruct (Hinv c) as (Hs & _). unfold senders in Hs.
  split; [|split].
  - intros Hfull. cbn [step]. rewrite Hh. unfold chanSend. rewrite Hfull.
    reflexivity.
  - apply no_reference_in_pool. lia.
  - cbn [step]. rewrite Hh. eexists. split; [reflexivity|].
    set (s' := setHandler h (HDone serviceBusy) s).
    split; [apply list_lookup_insert_eq; eapply lookup_lt_Some; exact Hh|].
    split; [reflexivity|].
    assert (Hnone : senders c s' = 0%nat).
    { unfold senders. subst s'. cbn [setHandler handlers ocrWorkerPool workers engines].
      pose proof (sum_list_with_insert (handlerSends c) (handlers s) h _
                    (HDone serviceBusy) Hh) as E.
      cbn [handlerSends] in E. unfold refersTo in E. fold c in E.
      rewrite ind_eqb_refl in E. lia. }
    assert (Hlt : (c < length (chans s'))%nat).
    { change (chans s') with (chans s). apply known_channel_exists; [exact Hinv|].
      unfold senders. lia. }
    intros schedule s'' Hrun.
    destruct (no_sender_run schedule s' s'' c Hlt Hnone Hrun) as [Hz _].
    apply no_reference_in_pool. unfold senders in Hz. lia.
Qed.

(** C5: an upload that passed validation and finds [ocrWorkerPool] full
    until after the 5 second timer is answered "service busy", status 503;
    the handler made its reply channel but enqueued nothing.  In the
    interleaved system a full queue keeps the send from going through, the
    timer case is always open, and the job is not in the queue then nor at
    any later time. *)
Theorem admission_timeout_is_service_busy `{GoPlatform} (g : Globals) (env : HandlerEnv)
  (r : Request) (filename : string) (fileBytes : list Byte.byte) :
  Method r = "POST" ->
  tesseractFound g = true ->
  is_Some (ocrClient g) ->
  formParses r = true ->
  formFile r = Some (filename, Some fileBytes) ->
  isValidImageType filename = true ->
  poolRoomAfter env = None \/
  (exists t, poolRoomAfter env = Some t /\ admissionTimeout < t) ->
  uploadHandler g env r = (serviceBusy, [MakeChan (newChan env) 1]) /\
  existsb isEnqueue (snd (uploadHandler g env r)) = false /\
  status serviceBusy = 503 /\
  body serviceBusy = Raw (errorJSON "OCR service busy, please try again") /\
  admissionTimeout = 5 * Second /\
  (forall s h req,
      reachable s ->
      handlers s !! h = Some (HAdmit req) ->
      (length (ocrWorkerPool s) = poolCapacity -> step s (Admit h) = None) /\
      Forall (fun q => ResponseCh q <> ResponseCh req) (ocrWorkerPool s) /\
      exists s',
        step s (AdmitExpire h) = Some s' /\
        handlers s' !! h = Some (HDone serviceBusy) /\
        ocrWorkerPool s' = ocrWorkerPool s /\
        forall schedule s'',
          run s' schedule = Some s'' ->
          Forall (fun q => ResponseCh q <> ResponseCh req) (ocrWorkerPool s'')).
Proof.
  intros HM Hfound Hclient Hparse Hfile Hvalid Hfull.
  assert (Hbusy : uploadHandler g env r = (serviceBusy, [MakeChan (newChan env) 1])).
  { rewrite (uploadHandler_validated g env r filename fileBytes HM Hfound Hclient Hparse
               Hfile Hvalid).
    cbn zeta. rewrite (selectWithTimer_late _ _ _ _ Hfull). reflexivity. }
  split; [exact Hbusy|]. rewrite Hbusy.
  repeat (split; [reflexivity|]).
  intros s h req. apply admission_expiry_keeps_job_out.
Qed.

Lemma admission_timeout_is_service_busy_witness :
  @uploadHandler unixASCII (readyGlobals "text")
    (sampleHandlerEnv None (Some Second) timeoutResponse) (sampleUpload "page.png")
  = (serviceBusy, [MakeChan 0 1]).
Proof.
  apply (@admission_timeout_is_service_busy unixASCII (readyGlobals "text")
           (sampleHandlerEnv None (Some Second) timeoutResponse) (sampleUpload "page.png")
           "page.png" [x89; x50; x4e; x47]%byte).
  - reflexivity.
  - reflexivity.
  - simpl. eexists. reflexivity.
  - reflexivity.
  - reflexivity.
  - vm_compute. reflexivity.
  - left. reflexivity.
Defined.

(** ** Temporary file names *)

Lemma digits_no_underscore (d : Decimal.uint) :
  GoStrings.allb notUnderscore (NilEmpty.string_of_uint d) = true.
Proof. induction d; simpl; auto. Qed.

Lemma formatInt_no_underscore (n : Z) :
  GoStrings.allb notUnderscore (formatInt n) = true.
Proof.
  unfold formatInt, NilZero.string_of_int, NilZero.string_of_uint.
  destruct (Z.to_int n) as [d|d]; destruct d; simpl;
    auto using digits_no_underscore.
Qed.

Lemma formatInt_inj (n m : Z) : formatInt n = formatInt m -> n = m.
Proof.
  unfold formatInt. intros Heq.
  assert (Hsome : forall z, NilZero.int_of_string (NilZero.string_of_int (Z.to_int z))
                            = Some (Z.to_int z)).
  { intros z. apply NilZero.isi; destruct z; simpl; try discriminate;
      intros Hnil; injection Hnil as Hnil;
      exact (DecimalPos.Unsigned.to_uint_nonnil p Hnil). }
  pose proof (Hsome n) as Hn. rewrite Heq, Hsome in Hn.
  injection Hn as Hn. rewrite <- (DecimalZ.of_to n), <- (DecimalZ.of_to m). congruence.
Qed.

(** The underscore after the digits ends them: what precedes the first
    underscore and what follows it are both determined. *)
Lemma split_at_underscore (a1 a2 f1 f2 : string) :
  GoStrings.allb notUnderscore a1 = true ->
  GoStrings.allb notUnderscore a2 = true ->
  a1 ++ String "_" f1 = a2 ++ String "_" f2 ->
  a1 = a2 /\ f1 = f2.
Proof.
  revert a2. induction a1 as [|c a1 IH]; intros [|c2 a2] H1 H2 Heq;
    cbv [String.append] in Heq; fold String.append in Heq; cbn [GoStrings.allb] in *.
  - injection Heq as ->. auto.
  - injection Heq as <- _. discriminate.
  - injection Heq as -> _. discriminate.
  - injection Heq as -> Heq.
    apply andb_prop in H1 as [_ H1]. apply andb_prop in H2 as [_ H2].
    destruct (IH a2 H1 H2 Heq) as [-> ->]. auto.
Qed.

(** Two temporary names are equal exactly when the clock readings and the
    original names are. *)
Lemma tempFileName_inj (n1 n2 : Z) (f1 f2 : string) :
  tempFileName n1 f1 = tempFileName n2 f2 <-> n1 = n2 /\ f1 = f2.
Proof.
  split; [|intros [-> ->]; reflexivity].
  unfold tempFileName. intros Heq.
  cbv [String.append] in Heq; fold String.append in Heq.
  injection Heq as Heq.
  destruct (split_at_underscore _ _ _ _ (formatInt_no_underscore n1)
              (formatInt_no_underscore n2) Heq) as [Hn Hf].
  split; [apply formatInt_inj; exact Hn | exact Hf].
Qed.

(** C8 (what the code does): two workers that read the same clock value for
    uploads of the same file name work on one and the same temporary file;
    the second write replaces the first job's bytes, and the second job's
    cleanup removes the file the first job still needs. *)
Theorem temp_names_collide :
  tempFileName 1700000000000000000 "scan.png" = "temp_1700000000000000000_scan.png" /\
  (exists s reqA reqB rcA rcB,
      @run unixASCII initial collisionSchedule = Some s /\
      workers s !! 0%nat = Some (WSelect reqA "temp_1700000000000000000_scan.png" rcA) /\
      workers s !! 1%nat = Some (WSelect reqB "temp_1700000000000000000_scan.png" rcB) /\
      ImageBytes reqA <> ImageBytes reqB /\
      ResponseCh reqA <> ResponseCh reqB) /\
  (let env := {| unixNano := 1700000000000000000; os := obligingOS;
                 engineSendsAfter := Some Second; selectTie := true |} in
   let afterA := snd (writeImageFileOptimized obligingOS
                        (tempFileName (unixNano env) "scan.png") [x01]%byte emptyWorld) in
   let afterB := snd (@processOCRRequest unixASCII (readyGlobals "B") env
                        [x02]%byte "scan.png" afterA) in
   fs afterA !! "temp_1700000000000000000_scan.png" = Some [x01]%byte /\
   fs (snd (writeImageFileOptimized obligingOS
              (tempFileName (unixNano env) "scan.png") [x02]%byte afterA))
     !! "temp_1700000000000000000_scan.png" = Some [x02]%byte /\
   fs afterB !! "temp_1700000000000000000_scan.png" = None).
Proof.
  split; [vm_compute; reflexivity|]. split.
  - do 5 eexists. split; [vm_compute; reflexivity|].
    split; [reflexivity|]. split; [reflexivity|].
    split; cbn; intros Heq; discriminate.
  - cbv zeta. split; [vm_compute; reflexivity|].
    split; vm_compute; reflexivity.
Qed.

(** ** Start-up *)





Lemma rangePaths_found (h : Host) (paths : list string) (path : string)
  (looked : list string) :
  rangePaths h paths = (Some path, looked) ->
  exists after,
    paths = (looked ++ after)%list /\
    (exists before, looked = (before ++ [path])%list /\
       Forall (fun q => lookPath h q && versionRuns h q = false) before) /\
    lookPath h path = true /\ versionRuns h path = true.
Proof.
  revert looked. induction paths as [|q more IH]; simpl; intros looked Hr; [discriminate|].
  destruct (lookPath h q && versionRuns h q) eqn:Hq.
  - injection Hr as <- <-. apply andb_prop in Hq as [Hl Hv].
    exists more. split; [reflexivity|]. split; [exists []; auto|]. auto.
  - destruct (rangePaths h more) as [found looked'] eqn:Hmore.
    injection Hr as -> <-.
    destruct (IH looked' eq_refl) as (after & -> & (before & -> & Hbefore) & Hl & Hv).
    exists after. split; [reflexivity|]. split; [|auto].
    exists (q :: before). split; [reflexivity|]. constructor; assumption.
Qed.

Lemma rangePaths_none (h : Host) (paths looked : list string) :
  rangePaths h paths = (None, looked) ->
  looked = paths /\ Forall (fun q => lookPath h q && versionRuns h q = false) paths.
Proof.
  revert looked. induction paths as [|q more IH]; simpl; intros looked Hr.
  - injection Hr as <-. auto.
  - destruct (lookPath h q && versionRuns h q) eqn:Hq; [discriminate|].
    destruct (rangePaths h more) as [found looked'] eqn:Hmore.
    injection Hr as -> <-. destruct (IH looked' eq_refl) as [-> Hall].
    split; [reflexivity|]. constructor; assumption.
Qed.

Lemma candidatePaths_nonempty (windows : bool) :
  Forall (fun q => q <> EmptyString) (candidatePaths windows).
Proof. destruct windows; repeat constructor; discriminate. Qed.


(** An answer "found" is what the variables hold afterwards, and the path
    held is not empty. *)
Lemma check_found_state (h : Host) (st : Startup) :
  snd (fst (checkTesseractInstallation h st)) = true ->
  tesseractPath (snd (checkTesseractInstallation h st)) <> EmptyString /\
  fst (checkTesseractInstallation h st)
  = (tesseractPath (snd (checkTesseractInstallation h st)),
     tesseractFound (globals (snd (checkTesseractInstallation h st)))).
Proof.
  unfold checkTesseractInstallation.
  destruct (String.eqb_spec (tesseractPath st) EmptyString) as [Hempty|Hcached];
    cbn [negb].
  - destruct (rangePaths h (candidatePaths (isWindows h))) as [[path|] looked] eqn:Hr;
      cbn [fst snd tesseractPath globals setFound tesseractFound]; [|discriminate].
    intros _. split; [|reflexivity].
    apply rangePaths_found in Hr as (after & Hpaths & (before & -> & _) & _).
    pose proof (candidatePaths_nonempty (isWindows h)) as Hall.
    rewrite Hpaths in Hall. rewrite !Forall_app in Hall.
    destruct Hall as [[_ Hp] _]. apply Forall_cons in Hp as [Hp _]. exact Hp.
  - cbn [fst snd]. intros _. split; [exact Hcached | reflexivity].
Qed.



(** X3: on a fresh start [checkTesseractInstallation] tries the candidate
    paths in order and answers with the first one that is both found and
    runs, having looked up exactly the candidates up to it; it answers "not
    found" (with an empty path, and nothing remembered) exactly after
    having looked up every candidate in vain. *)
Theorem probe_takes_first_working_path (h : Host) (st : Startup) :
  tesseractPath st = EmptyString ->
  let out := checkTesseractInstallation h st in
  (forall path,
      fst out = (path, true) ->
      exists before after,
        candidatePaths (isWindows h) = (before ++ path :: after)%list /\
        Forall (fun q => lookPath h q && versionRuns h q = false) before /\
        lookPath h path = true /\ versionRuns h path = true /\
        lookedUp (snd out) = (lookedUp st ++ before ++ [path])%list /\
        tesseractPath (snd out) = path /\
        tesseractFound (globals (snd out)) = true) /\
  (snd (fst out) = false ->
   fst out = (EmptyString, false) /\
   Forall (fun q => lookPath h q && versionRuns h q = false)
          (candidatePaths (isWindows h)) /\
   lookedUp (snd out) = (lookedUp st ++ candidatePaths (isWindows h))%list /\
   tesseractPath (snd out) = EmptyString /\
   tesseractFound (globals (snd out)) = false) /\
  ocrClient (globals (snd out)) = ocrClient (globals st).
Proof.
  intros Hfresh out. subst out. unfold checkTesseractInstallation.
  rewrite Hfresh. cbn [String.eqb negb].
  destruct (rangePaths h (candidatePaths (isWindows h))) as [[p|] looked] eqn:Hr;
    cbn [fst snd lookedUp tesseractPath globals setFound tesseractFound ocrClient].
  - split; [|split; [discriminate | reflexivity]].
    intros path Heq. injection Heq as <-.
    apply rangePaths_found in Hr as (after & Hpaths & (before & -> & Hbefore) & Hl & Hv).
    exists before, after. rewrite Hpaths, <- app_assoc. repeat split; auto.
  - split; [intros path Heq; discriminate|]. split; [|reflexivity].
    intros _. apply rangePaths_none in Hr as [-> Hall]. repeat split; auto.
Qed.

Lemma probe_takes_first_working_path_witness :
  lookedUp (snd (checkTesseractInstallation (bareHost true) zeroStartup))
  = candidatePaths true.
Proof.
  apply (proj1 (proj2 (probe_takes_first_working_path (bareHost true) zeroStartup
                         eq_refl))).
  reflexivity.
Defined.

(** The configuration check of [uploadHandler] lets a POST through only
    with both variables set. *)
Lemma upload_refused_unless_configured `{GoPlatform} (g : Globals) (env : HandlerEnv)
  (r : Request) :
  Method r = "POST" ->
  fst (uploadHandler g env r) <> notConfigured ->
  tesseractFound g = true /\ is_Some (ocrClient g).
Proof.
  intros HM Hpast. unfold uploadHandler in Hpast. rewrite HM in Hpast.
  cbn [String.eqb Ascii.eqb Bool.eqb negb] in Hpast.
  destruct (tesseractFound g); [|cbn in Hpast; contradiction].
  destruct (ocrClient g) as [client|]; [split; eauto|].
  cbn in Hpast. contradiction.
Qed.

(** The answer of the probe is what [tesseractFound] holds afterwards. *)
Lemma check_answer_is_state (h : Host) (st : Startup) :
  tesseractFound (globals (snd (checkTesseractInstallation h st)))
  = snd (fst (checkTesseractInstallation h st)).
Proof.
  unfold checkTesseractInstallation.
  destruct (negb (String.eqb (tesseractPath st) EmptyString)); [reflexivity|].
  destruct (rangePaths h (candidatePaths (isWindows h))) as [[p|] looked]; reflexivity.
Qed.

(** X4: after [initOCR], an upload gets past the "not configured" answer
    only if the probe answered "found" for some path and [ocr.New], called
    without options for "tesseract" and with that path otherwise, returned
    a client and no error; that client is then the one in [ocrClient]. *)
Theorem uploads_need_successful_init `{GoPlatform} (h : Host) (lib : OcrLibrary)
  (st : Startup) (env : HandlerEnv) (r : Request) :
  Method r = "POST" ->
  fst (uploadHandler (globals (initOCR h lib st)) env r) <> notConfigured ->
  exists path client,
    fst (checkTesseractInstallation h st) = (path, true) /\
    ocrNew lib (if String.eqb path "tesseract" then None else Some path)
    = (Some client, None) /\
    globals (initOCR h lib st) = {| ocrClient := Some client; tesseractFound := true |}.
Proof.
  intros HM Hpast.
  destruct (upload_refused_unless_configured _ env r HM Hpast) as [Hfound [client Hclient]].
  unfold initOCR in *.
  destruct (checkTesseractInstallation h st) as [[path found] st1] eqn:Hcheck.
  pose proof (check_found_state h st) as Hstate. rewrite Hcheck in Hstate.
  cbn [fst snd] in *.
  destruct found; cbn [negb] in *.
  - destruct (Hstate eq_refl) as [_ Hans]. injection Hans as _ Hf1.
    exists path. 
    destruct (String.eqb path "tesseract");
      [destruct (ocrNew lib None) as [c [e|]] eqn:Hnew
      |destruct (ocrNew lib (Some path)) as [c [e|]] eqn:Hnew];
      cbn [globals ocrClient tesseractFound] in *; try discriminate;
      subst c; exists client; rewrite <- Hf1; auto.
  - pose proof (check_answer_is_state h st) as Hsame. rewrite Hcheck in Hsame.
    cbn [fst snd] in Hsame. congruence.
Qed.

Lemma uploads_need_successful_init_witness :
  exists path client,
    fst (checkTesseractInstallation linuxHost zeroStartup) = (path, true) /\
    ocrNew (stubLibrary "text") (if String.eqb path "tesseract" then None else Some path)
    = (Some client, None) /\
    globals (initOCR linuxHost (stubLibrary "text") zeroStartup)
    = {| ocrClient := Some client; tesseractFound := true |}.
Proof.
  apply (@uploads_need_successful_init unixASCII linuxHost (stubLibrary "text") zeroStartup
           (sampleHandlerEnv (Some 0) (Some Second) {| Text := "text"; Err := None |})
           (sampleUpload "page.png")).
  - reflexivity.
  - vm_compute. discriminate.
Defined.

(** ** The pages *)

(** X5: the home page and the upload handler agree on whether the service
    is configured: the page is served with "Not Configured" and the setup
    warning exactly when a POST upload is answered "not configured", and
    with "Ready" exactly when an upload gets past that answer; either way
    with status 200 and [Cache-Control: no-cache]. *)
Theorem home_status_matches_uploads `{GoPlatform} (g : Globals) (cache : gmap string bool)
  (env : HandlerEnv) (r : Request) :
  Method r = "POST" ->
  cache !! "home" = Some true ->
  (homeHandler g cache = Served (homePage notConfiguredData) <->
   uploadHandler g env r = (notConfigured, [])) /\
  (homeHandler g cache = Served (homePage readyData) <->
   fst (uploadHandler g env r) <> notConfigured) /\
  pageStatus (homePage readyData) = 200 /\
  pageStatus (homePage notConfiguredData) = 200.
Proof.
  intros HM Hhome. unfold homeHandler. rewrite Hhome.
  destruct (negb (tesseractFound g) || negb (bool_decide (is_Some (ocrClient g))))
    eqn:Hdown.
  - assert (Hup : uploadHandler g env r = (notConfigured, [])).
    { unfold uploadHandler. rewrite HM. cbn [String.eqb Ascii.eqb Bool.eqb negb].
      rewrite Hdown. reflexivity. }
    rewrite Hup. cbn [fst].
    repeat split; try reflexivity; try discriminate; intros; congruence.
  - apply orb_false_elim in Hdown as [Hf Hc].
    apply negb_false_iff in Hf. apply negb_false_iff in Hc.
    apply bool_decide_eq_true_1 in Hc.
    assert (Hpast : fst (uploadHandler g env r) <> notConfigured).
    { unfold uploadHandler. rewrite HM. cbn [String.eqb Ascii.eqb Bool.eqb negb].
      rewrite Hf. rewrite bool_decide_eq_true_2 by exact Hc. cbn [negb orb].
      destruct (formParses r); cbn [negb]; [|cbn; discriminate].
      destruct (formFile r) as [[filename content]|]; [|cbn; discriminate].
      destruct (isValidImageType filename); cbn [negb]; [|cbn; discriminate].
      destruct content as [fileBytes|]; [|cbn; discriminate].
      destruct (selectWithTimer _ _ _ _); [|cbn; discriminate].
      destruct (selectWithTimer _ _ _ _) as [result|]; [|cbn; discriminate].
      cbn [fst]. unfold renderResult. destruct (Err result); discriminate. }
    repeat split; try reflexivity; try discriminate; auto.
    + intros Hup. rewrite Hup in Hpast. cbn in Hpast. contradiction.
Qed.

Lemma home_status_matches_uploads_witness :
  homeHandler {| ocrClient := None; tesseractFound := false |}
    (precompileTemplates (fun _ => true) ∅)
  = Served (homePage notConfiguredData).
Proof.
  refine (proj2 (proj1 (@home_status_matches_uploads unixASCII
                          {| ocrClient := None; tesseractFound := false |}
                          (precompileTemplates (fun _ => true) ∅)
                          (sampleHandlerEnv (Some 0) (Some Second) timeoutResponse)
                          (sampleUpload "page.png") eq_refl _)) _).
  - unfold precompileTemplates. apply lookup_insert_eq.
  - reflexivity.
Defined.

(** X6: before [precompileTemplates] has run both page handlers answer 500
    "Template not found"; after it neither ever does, whatever the cache
    held and whether or not parsing succeeded: a template that parsed is
    the page served, and one that did not makes its handler end in the
    nil-pointer panic. *)
Theorem precompiled_templates_are_found (parses : string -> bool)
  (cache : gmap string bool) (g : Globals) :
  setupHandler ∅ = Served templateNotFound /\
  homeHandler g ∅ = Served templateNotFound /\
  pageStatus templateNotFound = 500 /\
  setupHandler (precompileTemplates parses cache)
  = (if parses "setup" then Served setupPage else NilTemplate) /\
  (if parses "home"
   then exists data, homeHandler g (precompileTemplates parses cache)
                     = Served (homePage data)
   else homeHandler g (precompileTemplates parses cache) = NilTemplate).
Proof.
  unfold setupHandler, homeHandler, precompileTemplates.
  rewrite !lookup_empty.
  rewrite lookup_insert_ne by discriminate.
  rewrite !lookup_insert_eq.
  repeat split.
  destruct (parses "home"); eauto.
Qed.

(** ** The handler's answers *)

(** The paths through [uploadHandler], by what was done to the channels. *)
Lemma upload_cases `{GoPlatform} (g : Globals) (env : HandlerEnv)
  (r : Request) :
  let out := uploadHandler g env r in
  (snd out = [] /\
   (status (fst out) = 303 \/ fst out = notConfigured \/
    status (fst out) = 400 \/ status (fst out) = 500)) \/
  (exists filename fileBytes,
      Method r = "POST" /\ tesseractFound g = true /\ is_Some (ocrClient g) /\
      formParses r = true /\ formFile r = Some (filename, Some fileBytes) /\
      isValidImageType filename = true /\
      let req := {| ImageBytes := fileBytes; Filename := filename;
                    ResponseCh := newChan env |} in
      (out = (serviceBusy, [MakeChan (newChan env) 1]) \/
       out = (processingTimeout, [MakeChan (newChan env) 1; Enqueue req]) \/
       exists result,
         out = (renderResult filename result,
                [MakeChan (newChan env) 1; Enqueue req;
                 ReceiveReply (newChan env) result]))).
Proof.
  intros out. subst out. unfold uploadHandler.
  destruct (String.eqb_spec (Method r) "POST") as [HM|HM]; cbn [negb];
    [|left; split; [reflexivity | left; reflexivity]].
  destruct (tesseractFound g) eqn:Hfound; cbn [negb orb];
    [|left; split; [reflexivity | right; left; reflexivity]].
  destruct (bool_decide (is_Some (ocrClient g))) eqn:Hdec; cbn [negb orb];
    [|left; split; [reflexivity | right; left; reflexivity]].
  apply bool_decide_eq_true_1 in Hdec.
  destruct (formParses r) eqn:Hparse; cbn [negb];
    [|left; split; [reflexivity | right; right; left; reflexivity]].
  destruct (formFile r) as [[filename content]|] eqn:Hfile;
    [|left; split; [reflexivity | right; right; left; reflexivity]].
  destruct (isValidImageType filename) eqn:Hvalid; cbn [negb];
    [|left; split; [reflexivity | right; right; left; reflexivity]].
  destruct content as [fileBytes|];
    [|left; split; [reflexivity | right; right; right; reflexivity]].
  right. exists filename, fileBytes.
  repeat (split; [eauto; fail|]). cbn zeta.
  destruct (selectWithTimer (poolRoomAfter env) tt admissionTimeout (tieAdmission env));
    [|left; reflexivity].
  destruct (selectWithTimer (replyAfter env) (reply env) resultTimeout (tieResult env))
    as [result|]; [|right; left; reflexivity].
  right. right. exists result. reflexivity.
Qed.

(** X7: what [uploadHandler] did to the channels determines its answer,
    and the other way round: nothing touched for every synchronous
    rejection; a channel made and nothing else for "service busy"; the job
    enqueued and no reply read for "processing timeout"; the reply read
    from the channel just made for the rendered Result.  A job is enqueued
    at most once, only for an upload that passed every check, and carries
    the uploaded bytes, the file name and that channel. *)
Theorem upload_steps_and_answer `{GoPlatform} (g : Globals) (env : HandlerEnv)
  (r : Request) :
  let out := uploadHandler g env r in
  (snd out = [] /\
   (status (fst out) = 303 \/ fst out = notConfigured \/
    status (fst out) = 400 \/ status (fst out) = 500)) \/
  (exists filename fileBytes,
      Method r = "POST" /\ tesseractFound g = true /\ is_Some (ocrClient g) /\
      formParses r = true /\ formFile r = Some (filename, Some fileBytes) /\
      isValidImageType filename = true /\
      let req := {| ImageBytes := fileBytes; Filename := filename;
                    ResponseCh := newChan env |} in
      (out = (serviceBusy, [MakeChan (newChan env) 1]) \/
       out = (processingTimeout, [MakeChan (newChan env) 1; Enqueue req]) \/
       exists result,
         out = (renderResult filename result,
                [MakeChan (newChan env) 1; Enqueue req;
                 ReceiveReply (newChan env) result]))).
Proof. exact (upload_cases g env r). Qed.

(** X8: the handler answers 200 exactly when it has read a Result without
    error from its reply channel, and then the body carries that Result's
    text, the uploaded file's name and the engine's name; a Result with an
    error is answered 500 with the error in the message. *)
Theorem upload_ok_iff_clean_result `{GoPlatform} (g : Globals) (env : HandlerEnv)
  (r : Request) :
  (status (fst (uploadHandler g env r)) = 200 <->
   exists filename fileBytes result,
     formFile r = Some (filename, Some fileBytes) /\
     Err result = None /\
     uploadHandler g env r
     = ({| status := 200; body := Encoded (Text result) filename "Tesseract OCR" |},
        [MakeChan (newChan env) 1;
         Enqueue {| ImageBytes := fileBytes; Filename := filename;
                    ResponseCh := newChan env |};
         ReceiveReply (newChan env) result])) /\
  (forall id result e,
      In (ReceiveReply id result) (snd (uploadHandler g env r)) ->
      Err result = Some e ->
      fst (uploadHandler g env r)
      = {| status := 500; body := Raw (errorJSON ("OCR failed: " ++ e)) |}).
Proof.
  pose proof (upload_cases g env r) as Hcases. cbn zeta in Hcases.
  split; [split|].
  - intros Hok.
    destruct Hcases as [[_ Hrej] | (filename & fileBytes & _ & _ & _ & _ & Hfile & _ & Hout)].
    + destruct Hrej as [Hs | [Hs | [Hs | Hs]]]; rewrite Hs in Hok; discriminate.
    + destruct Hout as [Hout | [Hout | [result Hout]]]; rewrite Hout in Hok |- *;
        try discriminate.
      exists filename, fileBytes, result. split; [exact Hfile|].
      unfold renderResult in *. destruct (Err result); [discriminate|].
      split; reflexivity.
  - intros (filename & fileBytes & result & _ & _ & ->). reflexivity.
  - intros id result e Hin Herr.
    destruct Hcases as [[Hnil _] | (filename & fileBytes & _ & _ & _ & _ & _ & _ & Hout)].
    + rewrite Hnil in Hin. destruct Hin.
    + destruct Hout as [Hout | [Hout | [res Hout]]]; rewrite Hout in Hin |- *;
        cbn [snd fst] in *.
      * destruct Hin as [Heq | []]. discriminate.
      * destruct Hin as [Heq | [Heq | []]]; discriminate.
      * destruct Hin as [Heq | [Heq | [Heq | []]]]; try discriminate.
        injection Heq as _ ->. unfold renderResult. rewrite Herr. reflexivity.
Qed.

Lemma upload_ok_iff_clean_result_witness :
  status (fst (@uploadHandler unixASCII (readyGlobals "text")
                 (sampleHandlerEnv (Some 0) (Some Second) {| Text := "text"; Err := None |})
                 (sampleUpload "page.png"))) = 200.
Proof.
  apply (proj1 (@upload_ok_iff_clean_result unixASCII (readyGlobals "text")
                  (sampleHandlerEnv (Some 0) (Some Second) {| Text := "text"; Err := None |})
                  (sampleUpload "page.png"))).
  exists "page.png", [x89; x50; x4e; x47]%byte, {| Text := "text"; Err := None |}.
  split; [reflexivity|]. split; [reflexivity|]. vm_compute. reflexivity.
Defined.

(** X9: from upload to answer.  For an upload that passes every check
    and is admitted within 5 seconds, whose job is written, read by the
    engine as text [t] within 30 seconds and answered within 35 seconds,
    the handler answers 200 with [t] trimmed (or the sentinel when nothing
    is left) and the uploaded file's name. *)
Theorem upload_round_trip `{GoPlatform} (g : Globals) (henv : HandlerEnv) (r : Request)
  (jenv : JobEnv) (w w1 : World) (client : Ocr) (filename : string)
  (fileBytes : list Byte.byte) (t : string) (room d back : Z) :
  Method r = "POST" -> tesseractFound g = true -> ocrClient g = Some client ->
  formParses r = true -> formFile r = Some (filename, Some fileBytes) ->
  isValidImageType filename = true ->
  poolRoomAfter henv = Some room -> room < admissionTimeout ->
  writeImageFileOptimized (os jenv) (tempFileName (unixNano jenv) filename) fileBytes w
    = (None, w1) ->
  TextFromImageFile client (fs w1) (tempFileName (unixNano jenv) filename) = (t, None) ->
  engineSendsAfter jenv = Some d -> d < engineDeadline ->
  replyAfter henv = Some back -> back < resultTimeout ->
  reply henv = fst (processOCRRequest g jenv fileBytes filename w) ->
  fst (uploadHandler g henv r)
  = {| status := 200;
       body := Encoded (if String.eqb (GoStrings.TrimSpace t) EmptyString
                        then "No text detected in the image."
                        else GoStrings.TrimSpace t)
                       filename "Tesseract OCR" |}.
Proof.
  intros HM Hfound Hc Hparse Hfile Hvalid Hroom Hadm Hw Hans Hd Hdl Hback Hbl Hreply.
  assert (Hclient : is_Some (ocrClient g)) by (rewrite Hc; eauto).
  rewrite (uploadHandler_validated g henv r filename fileBytes HM Hfound Hclient Hparse
             Hfile Hvalid).
  cbn zeta. rewrite Hroom, (selectWithTimer_early _ _ _ _ Hadm).
  rewrite Hback, (selectWithTimer_early _ _ _ _ Hbl). cbn [fst].
  rewrite Hreply.
  rewrite (processOCRRequest_written g jenv fileBytes filename w w1 client Hc Hw).
  rewrite Hans, Hd, (selectWithTimer_early _ _ _ _ Hdl), engineResult_success.
  reflexivity.
Qed.

Lemma upload_round_trip_witness :
  fst (@uploadHandler unixASCII (readyGlobals "  scanned text  ")
         (sampleHandlerEnv (Some 0) (Some (3 * Second))
            (fst (@processOCRRequest unixASCII (readyGlobals "  scanned text  ")
                    (sampleJobEnv (Some (2 * Second))) [x89; x50; x4e; x47]%byte
                    "page.png" emptyWorld)))
         (sampleUpload "page.png"))
  = {| status := 200; body := Encoded "scanned text" "page.png" "Tesseract OCR" |}.
Proof.
  rewrite (@upload_round_trip unixASCII (readyGlobals "  scanned text  ") _
             (sampleUpload "page.png") (sampleJobEnv (Some (2 * Second))) emptyWorld
             (snd (writeImageFileOptimized obligingOS
                     (tempFileName 1700000000123456789 "page.png")
                     [x89; x50; x4e; x47]%byte emptyWorld))
             (stubEngine "  scanned text  ") "page.png" [x89; x50; x4e; x47]%byte
             "  scanned text  " 0 (2 * Second) (3 * Second)).
  - vm_compute. reflexivity.
  - reflexivity.
  - reflexivity.
  - reflexivity.
  - reflexivity.
  - reflexivity.
  - vm_compute. reflexivity.
  - reflexivity.
  - vm_compute. reflexivity.
  - vm_compute. reflexivity.
  - vm_compute. reflexivity.
  - reflexivity.
  - vm_compute. reflexivity.
  - reflexivity.
  - vm_compute. reflexivity.
  - reflexivity.
Defined.

(** ** What the job routine leaves on disk *)

(** The files and the error after the plain write, spelled out. *)
Lemma writePlain_outcome (o : OS) (name : string) (data : list Byte.byte) (w : World) :
  writePlain o name data w
  = match createFails o name with
    | Some e =>
        (Some e, {| fs := fs w; trace := (trace w ++ [SysCreate name])%list;
                    bufferPool := bufferPool w |})
    | None =>
        let taken := take (fst (rawWrite o name data)) data in
        (match snd (rawWrite o name data) with
         | Some msg => Some ("write " ++ name ++ ": " ++ msg)
         | None => if (length taken =? length data)%nat then None else Some ErrShortWrite
         end,
         {| fs := <[name := taken]> (fs w);
            trace := (trace w ++ [SysCreate name; SysWrite name data])%list;
            bufferPool := bufferPool w |})
    end.
Proof.
  unfold writePlain, osCreate, syscall, setFile. rewrite !bind_run. cbn [fst snd].
  destruct (createFails o name) as [e|]; [reflexivity|].
  rewrite !bind_run. cbn [fst snd ret].
  unfold fileWrite, syscall, readFile, setFile. rewrite !bind_run. cbn [fst snd fs trace].
  destruct (rawWrite o name data) as [n e]. rewrite !bind_run.
  cbn [fst snd ret fs trace bufferPool].
  rewrite lookup_insert_eq. cbn [default app]. rewrite insert_insert_eq.
  rewrite <- app_assoc. reflexivity.
Qed.

Lemma writeImageFileOptimized_outcome (o : OS) (name : string) (data : list Byte.byte)
  (w : World) :
  fst (writeImageFileOptimized o name data w)
  = match createFails o name with
    | Some e => Some e
    | None =>
        match snd (rawWrite o name data) with
        | Some msg => Some ("write " ++ name ++ ": " ++ msg)
        | None =>
            if (length (take (fst (rawWrite o name data)) data) =? length data)%nat
            then None else Some ErrShortWrite
        end
    end /\
  fs (snd (writeImageFileOptimized o name data w))
  = match createFails o name with
    | Some _ => fs w
    | None => <[name := take (fst (rawWrite o name data)) data]> (fs w)
    end.
Proof.
  destruct (writeImageFileOptimized_as_plain o name data w) as [-> ->].
  rewrite writePlain_outcome. destruct (createFails o name); split; reflexivity.
Qed.

(** X10: how [writeImageFileOptimized] fails.  When [os.Create] fails its
    error is returned and no file changes.  Otherwise the file holds
    exactly the bytes the kernel took, replacing what was there; the
    error is nil only if every byte was taken without a kernel error, it is
    "short write" when fewer were taken, and a kernel error is returned with
    the operation and the path in front.  No other file is touched. *)
Theorem write_failure_modes (o : OS) (name : string) (data : list Byte.byte) (w : World) :
  let out := writeImageFileOptimized o name data w in
  (forall e, createFails o name = Some e -> fst out = Some e /\ fs (snd out) = fs w) /\
  (createFails o name = None ->
   fs (snd out) !! name = Some (take (fst (rawWrite o name data)) data) /\
   (fst out = None <->
    (length data <= fst (rawWrite o name data))%nat /\ snd (rawWrite o name data) = None) /\
   (snd (rawWrite o name data) = None ->
    (fst (rawWrite o name data) < length data)%nat -> fst out = Some "short write") /\
   (forall msg, snd (rawWrite o name data) = Some msg ->
                fst out = Some ("write " ++ name ++ ": " ++ msg))) /\
  (forall other, other <> name -> fs (snd out) !! other = fs w !! other).
Proof.
  intros out. subst out.
  destruct (writeImageFileOptimized_outcome o name data w) as [-> ->].
  split; [|split].
  - intros e ->. auto.
  - intros ->. split; [apply lookup_insert_eq|].
    destruct (rawWrite o name data) as [n e]. cbn [fst snd].
    destruct e as [msg|].
    + split; [split; [discriminate | intros [_ Hn]; discriminate]|].
      split; [discriminate|]. intros m Hm. injection Hm as ->. reflexivity.
    + destruct (Nat.eqb_spec (length (take n data)) (length data)) as [Heq|Hne];
        rewrite length_take in *.
      * split; [split; [intros _; split; [lia | reflexivity] | reflexivity]|].
        split; [intros _ Hlt; lia | discriminate].
      * split; [split; [discriminate | intros [Hle _]; lia]|].
        split; [reflexivity | discriminate].
  - intros other Hne. destruct (createFails o name); [reflexivity|].
    apply lookup_insert_ne. congruence.
Qed.

Lemma write_failure_modes_witness :
  fst (writeImageFileOptimized
         {| createFails := fun _ => None; rawWrite := fun _ _ => (1%nat, None);
            removeFails := fun _ => None |}
         "temp_1_page.png" [x89; x50]%byte emptyWorld)
  = Some "short write".
Proof.
  apply (proj2 (write_failure_modes
                  {| createFails := fun _ => None; rawWrite := fun _ _ => (1%nat, None);
                     removeFails := fun _ => None |}
                  "temp_1_page.png" [x89; x50]%byte emptyWorld)).
  - reflexivity.
  - reflexivity.
  - simpl. lia.
Defined.

(** What the deferred cleanup does to the files. *)
Lemma cleanup_files (o : OS) (tempFile : string) (w : World) :
  fs (snd (cleanup o tempFile w))
  = match fs w !! tempFile, removeFails o tempFile with
    | Some _, None => delete tempFile (fs w)
    | _, _ => fs w
    end.
Proof.
  unfold cleanup, osRemove, readFile, setFile, logPrintf.
  rewrite !bind_run. cbn [syscall fst snd fs trace].
  destruct (fs w !! tempFile) as [content|]; cbn [fst snd ret syscall fs];
    [|reflexivity].
  destruct (removeFails o tempFile); rewrite ?bind_run; reflexivity.
Qed.

(** The job routine leaves every file but its temporary one as it was. *)
Lemma processOCRRequest_frame `{GoPlatform} (g : Globals) (env : JobEnv)
  (imageBytes : list Byte.byte) (filename : string) (w : World) (other : string) :
  other <> tempFileName (unixNano env) filename ->
  fs (snd (processOCRRequest g env imageBytes filename w)) !! other = fs w !! other.
Proof.
  set (tempFile := tempFileName (unixNano env) filename).
  intros Hne. unfold processOCRRequest.
  destruct (ocrClient g) as [client|]; [|reflexivity].
  fold tempFile. rewrite bind_run.
  pose proof (writeImageFileOptimized_outcome (os env) tempFile imageBytes w) as [_ Hf].
  assert (Hother : fs (snd (writeImageFileOptimized (os env) tempFile imageBytes w))
                     !! other = fs w !! other).
  { rewrite Hf. destruct (createFails (os env) tempFile); [reflexivity|].
    apply lookup_insert_ne. congruence. }
  destruct (writeImageFileOptimized (os env) tempFile imageBytes w) as [[e|] w1];
    cbn [fst snd] in *; [exact Hother|].
  rewrite !bind_run. cbn [fst snd ret]. rewrite cleanup_files.
  destruct (fs w1 !! tempFile); [|exact Hother].
  destruct (removeFails (os env) tempFile); [exact Hother|].
  rewrite lookup_delete_ne by congruence. exact Hother.
Qed.

(** X11: the job routine touches no file but its temporary one: every
    other file is as it was, on every path; and when the write and the
    removal both go through, a temporary name that was free before is free
    again, so the files are exactly what they were. *)
Theorem job_leaves_other_files_alone `{GoPlatform} (g : Globals) (env : JobEnv)
  (imageBytes : list Byte.byte) (filename : string) (w : World) :
  let tempFile := tempFileName (unixNano env) filename in
  let out := processOCRRequest g env imageBytes filename w in
  (forall other, other <> tempFile -> fs (snd out) !! other = fs w !! other) /\
  (is_Some (ocrClient g) ->
   fst (writeImageFileOptimized (os env) tempFile imageBytes w) = None ->
   removeFails (os env) tempFile = None ->
   fs (snd out) = delete tempFile (fs w)) /\
  (is_Some (ocrClient g) ->
   fst (writeImageFileOptimized (os env) tempFile imageBytes w) = None ->
   removeFails (os env) tempFile = None ->
   fs w !! tempFile = None ->
   fs (snd out) = fs w).
Proof.
  intros tempFile out. subst out.
  assert (Hwhole : is_Some (ocrClient g) ->
            fst (writeImageFileOptimized (os env) tempFile imageBytes w) = None ->
            removeFails (os env) tempFile = None ->
            fs (snd (processOCRRequest g env imageBytes filename w))
            = delete tempFile (fs w)).
  { intros [client Hc] Hok Hrm.
    destruct (writeImageFileOptimized (os env) tempFile imageBytes w) as [e w1] eqn:Hw.
    cbn [fst] in Hok. subst e.
    rewrite (processOCRRequest_written g env imageBytes filename w w1 client Hc Hw).
    cbn [snd]. fold tempFile. rewrite cleanup_files, Hrm.
    pose proof (writeImageFileOptimized_outcome (os env) tempFile imageBytes w) as [He Hf].
    rewrite Hw in He, Hf. cbn [fst snd] in He, Hf. rewrite Hf.
    destruct (createFails (os env) tempFile); [discriminate|].
    rewrite lookup_insert_eq. apply delete_insert_eq. }
  split; [|split; [exact Hwhole|]].
  - intros other Hne. apply processOCRRequest_frame. exact Hne.
  - intros Hc Hok Hrm Hfree. rewrite (Hwhole Hc Hok Hrm). apply delete_id. exact Hfree.
Qed.

Lemma job_leaves_other_files_alone_witness :
  fs (snd (@processOCRRequest unixASCII (readyGlobals "text") (sampleJobEnv (Some Second))
             [x89; x50]%byte "page.png" emptyWorld))
  = fs emptyWorld.
Proof.
  apply (@job_leaves_other_files_alone unixASCII (readyGlobals "text")
           (sampleJobEnv (Some Second)) [x89; x50]%byte "page.png" emptyWorld).
  - eexists. reflexivity.
  - vm_compute. reflexivity.
  - reflexivity.
  - reflexivity.
Defined.

(** X12: a job that fails before the engine call.  When the write of
    the temporary file returns an error, the routine returns it wrapped in
    "failed to create temporary file", the engine is not consulted and
    [os.Remove] is not called: if [os.Create] had succeeded, the file stays
    on disk with the bytes the kernel took. *)
Theorem failed_write_leaves_file_behind `{GoPlatform} (g : Globals) (env : JobEnv)
  (imageBytes : list Byte.byte) (filename : string) (w : World) (client : Ocr)
  (e : string) :
  let tempFile := tempFileName (unixNano env) filename in
  ocrClient g = Some client ->
  fst (writeImageFileOptimized (os env) tempFile imageBytes w) = Some e ->
  let out := processOCRRequest g env imageBytes filename w in
  fst out = {| Text := EmptyString;
               Err := Some ("failed to create temporary file: " ++ e) |} /\
  removals tempFile (trace (snd out)) = removals tempFile (trace w) /\
  (forall client',
      fst (processOCRRequest {| ocrClient := Some client';
                                tesseractFound := tesseractFound g |}
             env imageBytes filename w) = fst out) /\
  (createFails (os env) tempFile = None ->
   fs (snd out) !! tempFile
   = Some (take (fst (rawWrite (os env) tempFile imageBytes)) imageBytes)).
Proof.
  intros tempFile Hc Hfail out. subst out.
  assert (Hrun : forall g', is_Some (ocrClient g') ->
            processOCRRequest g' env imageBytes filename w
            = ({| Text := EmptyString;
                  Err := Some ("failed to create temporary file: " ++ e) |},
               snd (writeImageFileOptimized (os env) tempFile imageBytes w))).
  { intros g' [c' Hc']. unfold processOCRRequest. rewrite Hc'. fold tempFile.
    rewrite bind_run. rewrite Hfail. reflexivity. }
  rewrite (Hrun g) by (rewrite Hc; eauto). cbn [fst snd].
  split; [reflexivity|]. split; [apply writeImageFileOptimized_removals|]. split.
  - intros client'. rewrite Hrun by (cbn; eauto). reflexivity.
  - intros Hcreate.
    destruct (writeImageFileOptimized_outcome (os env) tempFile imageBytes w) as [_ ->].
    rewrite Hcreate. apply lookup_insert_eq.
Qed.

Lemma failed_write_leaves_file_behind_witness :
  fs (snd (@processOCRRequest unixASCII (readyGlobals "text")
             {| unixNano := 1; os := {| createFails := fun _ => None;
                                        rawWrite := fun _ _ => (1%nat, None);
                                        removeFails := fun _ => None |};
                engineSendsAfter := Some Second; selectTie := true |}
             [x89; x50]%byte "page.png" emptyWorld))
    !! "temp_1_page.png" = Some [x89]%byte.
Proof.
  apply (@failed_write_leaves_file_behind unixASCII (readyGlobals "text")
           {| unixNano := 1; os := {| createFails := fun _ => None;
                                      rawWrite := fun _ _ => (1%nat, None);
                                      removeFails := fun _ => None |};
              engineSendsAfter := Some Second; selectTie := true |}
           [x89; x50]%byte "page.png" emptyWorld (stubEngine "text") "short write").
  - reflexivity.
  - vm_compute. reflexivity.
  - reflexivity.
Defined.



(** X14: temporary names keep jobs apart as far as the clock does: two
    names are equal exactly when both the clock readings and the file
    names are; so a job never reads, overwrites or removes the temporary
    file of a job that differs from it in the clock reading or in the file
    name. *)
Theorem temp_names_separate_jobs `{GoPlatform} (n1 n2 : Z) (f1 f2 : string) :
  (tempFileName n1 f1 = tempFileName n2 f2 <-> n1 = n2 /\ f1 = f2) /\
  (n1 <> n2 \/ f1 <> f2 ->
   forall g env imageBytes w,
     unixNano env = n2 ->
     fs (snd (processOCRRequest g env imageBytes f2 w)) !! tempFileName n1 f1
     = fs w !! tempFileName n1 f1).
Proof.
  split; [apply tempFileName_inj|].
  intros Hdiff g env imageBytes w Hn. apply processOCRRequest_frame.
  rewrite Hn. intros Heq. apply tempFileName_inj in Heq as [Hn' Hf']. tauto.
Qed.

Lemma temp_names_separate_jobs_witness :
  fs (snd (@processOCRRequest unixASCII (readyGlobals "text") (sampleJobEnv (Some Second))
             [x89; x50]%byte "page.png"
             {| fs := {["temp_1700000000123456788_page.png" := [x01]%byte]};
                trace := []; bufferPool := [] |}))
    !! tempFileName 1700000000123456788 "page.png"
  = Some [x01]%byte.
Proof.
  rewrite (proj2 (@temp_names_separate_jobs unixASCII 1700000000123456788
                    1700000000123456789 "page.png" "page.png")).
  - vm_compute. reflexivity.
  - left. discriminate.
  - reflexivity.
Defined.

(** ** Which file names pass [isValidImageType] *)

Lemma list_ascii_of_string_app (s1 s2 : string) :
  list_ascii_of_string (s1 ++ s2)
  = (list_ascii_of_string s1 ++ list_ascii_of_string s2)%list.
Proof.
  induction s1 as [|c s1 IH]; cbv [String.append]; fold String.append; simpl;
    [reflexivity | rewrite IH; reflexivity].
Qed.

(** The loop of [filepath.Ext] walks back over bytes that are neither a dot
    nor a separator. *)
Lemma extLoop_skips `{GoPlatform} (l todo : list ascii) (suffix : string) :
  forallb (fun c => notSeparator c && notDot c) l = true ->
  GoStrings.extLoop (rev l ++ todo)%list suffix
  = GoStrings.extLoop todo (string_of_list_ascii l ++ suffix).
Proof.
  revert todo. induction l as [|a l IH]; intros todo Hok; [reflexivity|].
  simpl in Hok. apply andb_prop in Hok as [Ha Hl]. apply andb_prop in Ha as [Hsep Hdot].
  simpl rev. rewrite <- app_assoc. rewrite (IH _ Hl). simpl.
  unfold notSeparator, notDot in *.
  apply negb_true_iff in Hsep. apply negb_true_iff in Hdot.
  rewrite Hsep, Hdot. reflexivity.
Qed.

Lemma extLoop_no_dot `{GoPlatform} (l : list ascii) (suffix : string) :
  forallb notDot l = true -> GoStrings.extLoop l suffix = EmptyString.
Proof.
  revert suffix. induction l as [|a l IH]; intros suffix Hok; [reflexivity|].
  simpl in Hok. apply andb_prop in Hok as [Ha Hl]. simpl.
  destruct (IsPathSeparator a); [reflexivity|].
  unfold notDot in Ha. apply negb_true_iff in Ha. rewrite Ha. apply IH. exact Hl.
Qed.

Lemma extLoop_stops_at_separator `{GoPlatform} (l todo : list ascii) (sep : ascii)
  (suffix : string) :
  forallb notDot l = true -> IsPathSeparator sep = true ->
  GoStrings.extLoop (l ++ sep :: todo)%list suffix = EmptyString.
Proof.
  revert suffix. induction l as [|a l IH]; intros suffix Hl Hsep; simpl.
  - rewrite Hsep. reflexivity.
  - simpl in Hl. apply andb_prop in Hl as [Ha Hl].
    destruct (IsPathSeparator a); [reflexivity|].
    unfold notDot in Ha. apply negb_true_iff in Ha. rewrite Ha. apply IH; assumption.
Qed.

Lemma allb_forallb (p : ascii -> bool) (s : string) :
  GoStrings.allb p s = forallb p (list_ascii_of_string s).
Proof. induction s as [|c s IH]; simpl; [reflexivity | rewrite IH; reflexivity]. Qed.

(** The extension of a name that ends in a dot followed by bytes that are
    neither dots nor separators is that ending. *)
Lemma Ext_of_ending `{GoPlatform} (stem rest : string) :
  IsPathSeparator "." = false ->
  GoStrings.allb (fun c => notSeparator c && notDot c) rest = true ->
  GoStrings.Ext (stem ++ String "." rest) = String "." rest.
Proof.
  intros Hdot Hrest. unfold GoStrings.Ext.
  rewrite list_ascii_of_string_app. simpl list_ascii_of_string.
  rewrite rev_app_distr. simpl rev. rewrite <- app_assoc.
  rewrite allb_forallb in Hrest. rewrite (extLoop_skips _ _ _ Hrest).
  simpl. rewrite Hdot. rewrite string_of_list_ascii_of_string.
  assert (Hnil : forall s : string, s ++ EmptyString = s).
  { induction s as [|c s IH]; cbv [String.append]; fold String.append;
      [reflexivity | rewrite IH; reflexivity]. }
  rewrite Hnil. reflexivity.
Qed.

Lemma lowerByte_dot (c : ascii) : GoStrings.lowerByte c = "."%char -> c = "."%char.
Proof.
  destruct c as [[] [] [] [] [] [] [] []]; vm_compute; intros Heq;
    solve [reflexivity | discriminate].
Qed.

Lemma lowerByte_keeps_ascii (c : ascii) :
  GoStrings.isASCIIbyte (GoStrings.lowerByte c) = GoStrings.isASCIIbyte c.
Proof. destruct c as [[] [] [] [] [] [] [] []]; vm_compute; reflexivity. Qed.

Lemma lowerByte_of_lower (c : ascii) :
  GoStrings.isUpperASCII c = false -> GoStrings.lowerByte c = c.
Proof. unfold GoStrings.lowerByte. intros ->. reflexivity. Qed.

(** On ASCII-only strings [strings.ToLower] lowers byte by byte. *)
Lemma ToLower_ascii `{GoPlatform} (s : string) :
  GoStrings.allb GoStrings.isASCIIbyte s = true ->
  GoStrings.ToLower s = GoStrings.mapBytes GoStrings.lowerByte s.
Proof.
  intros Hascii. unfold GoStrings.ToLower. rewrite Hascii.
  destruct (GoStrings.existsb_str GoStrings.isUpperASCII s) eqn:Hup; [reflexivity|].
  cbn [negb]. clear Hascii.
  induction s as [|c s IH]; [reflexivity|].
  simpl in Hup. apply orb_false_elim in Hup as [Hc Hs].
  simpl. rewrite (lowerByte_of_lower c Hc), <- (IH Hs). reflexivity.
Qed.

Lemma lowered_ascii (s : string) :
  GoStrings.allb GoStrings.isASCIIbyte (GoStrings.mapBytes GoStrings.lowerByte s)
  = GoStrings.allb GoStrings.isASCIIbyte s.
Proof.
  induction s as [|c s IH]; [reflexivity|].
  simpl. rewrite lowerByte_keeps_ascii, IH. reflexivity.
Qed.

Lemma lowered_no_dot (s : string) :
  GoStrings.allb notDot (GoStrings.mapBytes GoStrings.lowerByte s) = true ->
  GoStrings.allb notDot s = true.
Proof.
  induction s as [|c s IH]; [reflexivity|].
  simpl. intros Hok. apply andb_prop in Hok as [Hc Hs]. rewrite (IH Hs), andb_true_r.
  unfold notDot in *. apply negb_true_iff in Hc. apply negb_true_iff.
  destruct (Ascii.eqb_spec c "."); [subst c; vm_compute in Hc; discriminate|reflexivity].
Qed.

Lemma validExts_shape (ext : string) :
  In ext validExts ->
  exists letters, ext = String "." letters /\
                  GoStrings.allb notDot letters = true /\
                  GoStrings.allb GoStrings.isASCIIbyte ext = true.
Proof.
  intros Hin. repeat (destruct Hin as [<- | Hin]; [eexists; repeat split; reflexivity|]).
  destruct Hin.
Qed.

Lemma allb_and (p q : ascii -> bool) (s : string) :
  GoStrings.allb p s = true -> GoStrings.allb q s = true ->
  GoStrings.allb (fun c => p c && q c) s = true.
Proof.
  induction s as [|c s IH]; [reflexivity|]. simpl. intros Hp Hq.
  apply andb_prop in Hp as [-> Hp]. apply andb_prop in Hq as [-> Hq].
  rewrite (IH Hp Hq). reflexivity.
Qed.

(** X15: a file name is accepted as soon as it ends in one of the six
    extensions written in any mix of upper and lower case, whatever comes
    before it (further dots, directories), provided the extension holds no
    path separator of the platform. *)
Theorem accepts_extension_in_any_case `{GoPlatform} (stem ending : string) :
  In (GoStrings.mapBytes GoStrings.lowerByte ending)
     [".png"; ".jpg"; ".jpeg"; ".gif"; ".bmp"; ".tiff"] ->
  GoStrings.allb notSeparator ending = true ->
  GoStrings.Ext (stem ++ ending) = ending /\
  isValidImageType (stem ++ ending) = true.
Proof.
  intros Hin Hsep.
  destruct (validExts_shape _ Hin) as (letters & Hshape & Hletters & Hascii).
  rewrite lowered_ascii in Hascii.
  destruct ending as [|c rest]; [discriminate|].
  simpl in Hshape. injection Hshape as Hc Hrest.
  apply lowerByte_dot in Hc. subst c.
  rewrite <- Hrest in Hletters. apply lowered_no_dot in Hletters.
  simpl in Hsep. apply andb_prop in Hsep as [Hdot Hsep].
  unfold notSeparator in Hdot. apply negb_true_iff in Hdot.
  assert (HExt : GoStrings.Ext (stem ++ String "." rest) = String "." rest).
  { apply Ext_of_ending; [exact Hdot|]. apply allb_and; assumption. }
  split; [exact HExt|].
  unfold isValidImageType. rewrite HExt, (ToLower_ascii _ Hascii).
  apply rangeValidExts_In. exact Hin.
Qed.

Lemma accepts_extension_in_any_case_witness :
  @isValidImageType unixASCII "Holiday.2024/Photo.final.JpEg" = true.
Proof.
  apply (@accepts_extension_in_any_case unixASCII "Holiday.2024/Photo.final" ".JpEg").
  - vm_compute. tauto.
  - reflexivity.
Defined.

(** X16: a file name without a dot is rejected, and dots in the directory
    part do not count: a name whose last path element holds no dot is
    rejected whatever the directories are called. *)
Theorem rejects_names_without_extension `{GoPlatform} (dir base : string) (sep : ascii) :
  GoStrings.allb notDot base = true ->
  (GoStrings.Ext base = EmptyString /\ isValidImageType base = false) /\
  (IsPathSeparator sep = true ->
   GoStrings.Ext (dir ++ String sep base) = EmptyString /\
   isValidImageType (dir ++ String sep base) = false).
Proof.
  intros Hbase. rewrite allb_forallb in Hbase.
  assert (Hempty : forall path, GoStrings.Ext path = EmptyString ->
                                isValidImageType path = false).
  { intros path Hext. unfold isValidImageType. rewrite Hext. reflexivity. }
  assert (Hrev : forallb notDot (rev (list_ascii_of_string base)) = true).
  { rewrite forallb_forall in *. intros c Hc. apply Hbase. apply in_rev. exact Hc. }
  split.
  - assert (HExt : GoStrings.Ext base = EmptyString)
      by (unfold GoStrings.Ext; apply extLoop_no_dot; exact Hrev).
    split; [exact HExt | apply Hempty; exact HExt].
  - intros Hsep.
    assert (HExt : GoStrings.Ext (dir ++ String sep base) = EmptyString).
    { unfold GoStrings.Ext. rewrite list_ascii_of_string_app. simpl list_ascii_of_string.
      rewrite rev_app_distr. simpl rev. rewrite <- app_assoc. simpl app.
      apply extLoop_stops_at_separator; assumption. }
    split; [exact HExt | apply Hempty; exact HExt].
Qed.

Lemma rejects_names_without_extension_witness :
  @isValidImageType unixASCII "scans.png/README" = false.
Proof.
  apply (@rejects_names_without_extension unixASCII "scans.png" "README" "/").
  - reflexivity.
  - reflexivity.
Defined.

(** ** More on the interleaved goroutines *)

Lemma sum_list_with_le_length {A : Type} (f : A -> nat) (l : list A) :
  (forall x, f x <= 1)%nat -> (sum_list_with f l <= length l)%nat.
Proof.
  intros Hf. induction l as [|x l IH]; simpl; [lia|]. specialize (Hf x). lia.
Qed.

Lemma bounded_step `{GoPlatform} (s s' : System) (a : Action) :
  (length (ocrWorkerPool s) <= poolCapacity)%nat /\ length (workers s) = workerCount ->
  step s a = Some s' ->
  (length (ocrWorkerPool s') <= poolCapacity)%nat /\ length (workers s') = workerCount.
Proof.
  intros [Hq Hw] Hstep. step_cases Hstep.
  all: rewrite ?length_insert, ?length_app; cbn [length] in *.
  all: repeat match goal with
              | Hq : ocrWorkerPool _ = _ :: _ |- _ => rewrite Hq in *; clear Hq
              | Hb : (_ <? _)%nat = true |- _ => apply Nat.ltb_lt in Hb
              end.
  all: cbn [length] in *; split; lia.
Qed.

(** X17: the dispatch layer is bounded: in every reachable state the queue
    holds at most 10 jobs and there are exactly 3 workers, so at most 13
    jobs are queued or being processed; an eleventh send finds no room. *)
Theorem queue_and_workers_bounded `{GoPlatform} (s : System) :
  reachable s ->
  (length (ocrWorkerPool s) <= 10)%nat /\
  length (workers s) = 3%nat /\
  (jobsInside s <= 13)%nat /\
  (forall h, length (ocrWorkerPool s) = 10%nat -> step s (Admit h) = None).
Proof.
  intros Hreach.
  assert (Hb : (length (ocrWorkerPool s) <= poolCapacity)%nat /\
               length (workers s) = workerCount).
  { revert s Hreach. apply invariant_reachable.
    - split; [simpl; lia | reflexivity].
    - intros s0 a s1. apply bounded_step. }
  destruct Hb as [Hq Hw]. unfold poolCapacity, workerCount in *.
  split; [exact Hq|]. split; [exact Hw|]. split.
  - unfold jobsInside.
    pose proof (sum_list_with_le_length busy (workers s)) as Hbusy.
    assert (Hle : forall pc, (busy pc <= 1)%nat) by (intros []; simpl; lia).
    specialize (Hbusy Hle). lia.
  - intros h Hfull. cbn [step].
    destruct (handlers s !! h) as [[req| |]|]; try reflexivity.
    unfold chanSend. rewrite Hfull. reflexivity.
Qed.

Lemma queue_and_workers_bounded_witness :
  exists s, @run unixASCII initial overlapSchedule = Some s /\ (jobsInside s <= 13)%nat.
Proof.
  eexists. split; [vm_compute; reflexivity|].
  refine (proj1 (proj2 (proj2 (@queue_and_workers_bounded unixASCII _ _)))).
  exists overlapSchedule. vm_compute. reflexivity.
Defined.

Lemma fifo_step `{GoPlatform} (s s' : System) (a : Action) :
  step s a = Some s' ->
  (ocrWorkerPool s ++ admittedBy s a)%list = (takenBy s a ++ ocrWorkerPool s')%list.
Proof.
  intros Hstep. unfold admittedBy, takenBy.
  step_cases Hstep.
  all: repeat match goal with
              | Hq : ocrWorkerPool _ = _ :: _ |- _ => rewrite Hq in *; clear Hq
              | Hq : ocrWorkerPool _ = [] |- _ => rewrite Hq in *; clear Hq
              | Hh : handlers _ !! _ = Some _ |- _ => rewrite Hh; clear Hh
              end.
  all: try (destruct (ocrWorkerPool s); discriminate).
  all: rewrite ?app_nil_r; try reflexivity.
Qed.

(** X18: the queue is first in, first out, loses nothing and repeats
    nothing: along every schedule, the jobs already in the queue followed by
    the jobs admitted are the jobs taken by workers followed by the jobs
    still queued, in this order.  From the start, the jobs taken are a
    prefix of the jobs admitted. *)
Theorem queue_is_fifo `{GoPlatform} (s s' : System) (schedule : list Action) :
  run s schedule = Some s' ->
  (ocrWorkerPool s ++ history admittedBy s schedule)%list
  = (history takenBy s schedule ++ ocrWorkerPool s')%list /\
  (ocrWorkerPool s = [] ->
   history admittedBy s schedule
   = (history takenBy s schedule ++ ocrWorkerPool s')%list).
Proof.
  intros Hrun.
  assert (Hfifo : (ocrWorkerPool s ++ history admittedBy s schedule)%list
                  = (history takenBy s schedule ++ ocrWorkerPool s')%list).
  { revert s Hrun. induction schedule as [|a schedule IH]; intros s Hrun; simpl in *.
    - injection Hrun as <-. rewrite app_nil_r. reflexivity.
    - destruct (step s a) as [s1|] eqn:Hstep; [|discriminate].
      rewrite app_assoc, (fifo_step s s1 a Hstep), <- !app_assoc.
      rewrite (IH s1 Hrun). reflexivity. }
  split; [exact Hfifo|]. intros Hempty. rewrite Hempty in Hfifo. exact Hfifo.
Qed.

Lemma queue_is_fifo_witness :
  @history unixASCII admittedBy initial overlapSchedule
  = [{| ImageBytes := [x01]%byte; Filename := "a.png"; ResponseCh := 0 |};
     {| ImageBytes := [x02]%byte; Filename := "b.png"; ResponseCh := 1 |}].
Proof.
  destruct (@run unixASCII initial overlapSchedule) as [s|] eqn:Hrun;
    [|vm_compute in Hrun; discriminate].
  rewrite (proj2 (@queue_is_fifo unixASCII initial s overlapSchedule Hrun) eq_refl).
  vm_compute in Hrun. injection Hrun as <-. vm_compute. reflexivity.
Defined.

Lemma buffered_insert (c c' : nat) (l : list (list OCRResponse)) (b b' : list OCRResponse) :
  l !! c' = Some b ->
  default [] (<[c' := b']> l !! c)
  = if (c' =? c)%nat then b' else default [] (l !! c).
Proof.
  intros Hl. destruct (Nat.eqb_spec c' c) as [->|Hne].
  - rewrite list_lookup_insert_eq by (eapply lookup_lt_Some; exact Hl). reflexivity.
  - rewrite list_lookup_insert_ne by exact Hne. reflexivity.
Qed.

Lemma buffered_new (c : nat) (l : list (list OCRResponse)) :
  default [] ((l ++ [[]])%list !! c) = default [] (l !! c).
Proof.
  destruct (Nat.lt_ge_cases c (length l)) as [Hlt|Hge].
  - rewrite lookup_app_l by exact Hlt. reflexivity.
  - rewrite (proj2 (lookup_ge_None l c) Hge).
    destruct (Nat.eq_dec c (length l)) as [->|Hne].
    + rewrite lookup_app_r by lia. rewrite Nat.sub_diag. reflexivity.
    + rewrite (proj2 (lookup_ge_None _ c)); [reflexivity|].
      rewrite length_app. simpl. lia.
Qed.

Lemma integrity_step `{GoPlatform} (s s' : System) (a : Action) (c : nat) :
  sentValues c s = (receivedValues c s ++ buffered c s)%list ->
  step s a = Some s' ->
  sentValues c s' = (receivedValues c s' ++ buffered c s')%list.
Proof.
  intros Hinv Hstep. unfold sentValues, receivedValues, buffered in *.
  step_cases Hstep.
  all: rewrite ?flat_map_app; cbn [flat_map sentValue receivedValue].
  all: rewrite ?app_nil_r, ?buffered_new; try exact Hinv.
  all: match goal with
       | Hl : chans _ !! _ = Some _ |- _ => rewrite (buffered_insert _ _ _ _ _ Hl)
       end.
  all: match goal with
       | |- context [(?a =? ?b)%nat] =>
           destruct (Nat.eqb_spec a b) as [Heq|Hne];
           [ subst;
             match goal with
             | Hl : chans _ !! _ = Some _ |- _ => rewrite Hl in Hinv; cbn [default] in Hinv
             end
           | ]
       end.
  all: rewrite ?app_nil_r; try exact Hinv.
  all: rewrite Hinv; rewrite <- ?app_assoc; reflexivity.
Qed.

Lemma In_sentValues (c : nat) (r : OCRResponse) (log : list ChanEvent) :
  In r (flat_map (sentValue c) log) <-> In (Sent c r) log.
Proof.
  rewrite in_flat_map. split.
  - intros (ev & Hin & Hr). destruct ev as [id|id r'|id r']; simpl in Hr; try contradiction.
    destruct (Nat.eqb_spec id c); [|contradiction].
    destruct Hr as [<- | []]. subst id. exact Hin.
  - intros Hin. exists (Sent c r). split; [exact Hin|].
    simpl. rewrite Nat.eqb_refl. left. reflexivity.
Qed.

Lemma In_receivedValues (c : nat) (r : OCRResponse) (log : list ChanEvent) :
  In r (flat_map (receivedValue c) log) <-> In (Received c r) log.
Proof.
  rewrite in_flat_map. split.
  - intros (ev & Hin & Hr). destruct ev as [id|id r'|id r']; simpl in Hr; try contradiction.
    destruct (Nat.eqb_spec id c); [|contradiction].
    destruct Hr as [<- | []]. subst id. exact Hin.
  - intros Hin. exists (Received c r). split; [exact Hin|].
    simpl. rewrite Nat.eqb_refl. left. reflexivity.
Qed.

Lemma length_sentValues (c : nat) (log : list ChanEvent) :
  length (flat_map (sentValue c) log) = sum_list_with (sentOn c) log.
Proof.
  induction log as [|ev log IH]; [reflexivity|].
  cbn [flat_map sum_list_with]. rewrite length_app, IH.
  destruct ev as [id|id r|id r]; simpl; try reflexivity.
  destruct (id =? c)%nat; reflexivity.
Qed.

(** X19: the channels deliver what was sent, once: on every channel the
    Results sent so far are the Results received so far followed by what is
    still buffered, in order; so every Result a handler or worker receives
    was sent on that very channel, and since a channel sees at most one
    send, it is received at most once. *)
Theorem channels_deliver_what_was_sent `{GoPlatform} (s : System) (c : nat) :
  reachable s ->
  sentValues c s = (receivedValues c s ++ buffered c s)%list /\
  (forall r, In (Received c r) (chanLog s) -> In (Sent c r) (chanLog s)) /\
  (forall r, In r (buffered c s) -> In (Sent c r) (chanLog s)) /\
  (length (sentValues c s) <= 1)%nat /\
  (length (receivedValues c s) <= 1)%nat.
Proof.
  intros Hreach.
  assert (Hinv : sentValues c s = (receivedValues c s ++ buffered c s)%list).
  { revert s Hreach. apply invariant_reachable.
    - reflexivity.
    - intros s0 a s1 H0 Hstep. exact (integrity_step s0 s1 a c H0 Hstep). }
  assert (Hone : (length (sentValues c s) <= 1)%nat).
  { unfold sentValues. rewrite length_sentValues.
    destruct (reachable_channelInv s Hreach c) as (Hs & _). unfold sends in Hs. lia. }
  split; [exact Hinv|]. split; [|split; [|split; [exact Hone|]]].
  - intros r Hin. apply In_sentValues. fold (sentValues c s). rewrite Hinv.
    apply in_or_app. left. apply In_receivedValues. exact Hin.
  - intros r Hin. apply In_sentValues. fold (sentValues c s). rewrite Hinv.
    apply in_or_app. right. exact Hin.
  - rewrite Hinv, length_app in Hone. lia.
Qed.

Lemma channels_deliver_what_was_sent_witness :
  exists s, @run unixASCII initial (abandonedSchedule ++ [Reply 0])%list = Some s /\
            sentValues 0 s = (receivedValues 0 s ++ buffered 0 s)%list /\
            buffered 0 s = [timeoutResponse].
Proof.
  eexists. split; [vm_compute; reflexivity|]. split; [|vm_compute; reflexivity].
  refine (proj1 (@channels_deliver_what_was_sent unixASCII _ 0%nat _)).
  exists (abandonedSchedule ++ [Reply 0])%list. vm_compute. reflexivity.
Defined.

Lemma sum_list_with_two {A : Type} (f : A -> nat) (l : list A) (i j : nat) (x y : A) :
  i <> j -> l !! i = Some x -> l !! j = Some y ->
  (f x + f y <= sum_list_with f l)%nat.
Proof.
  revert i j. induction l as [|a l IH]; intros i j Hne Hi Hj; [discriminate|].
  destruct i as [|i], j as [|j]; simpl in *; try congruence.
  - injection Hi as ->. pose proof (sum_list_with_lookup f l j y Hj). lia.
  - injection Hj as ->. pose proof (sum_list_with_lookup f l i x Hi). lia.
  - assert (Hne' : i <> j) by congruence. specialize (IH i j Hne' Hi Hj). lia.
Qed.

Lemma workerSends_job (pc : WorkerPc) (req : OCRRequest) :
  jobOf pc = Some req -> workerSends (ResponseCh req) pc = 1%nat.
Proof.
  destruct pc; simpl; intros Hjob; try discriminate; injection Hjob as ->;
    unfold refersTo; apply ind_eqb_refl.
Qed.

(** X20: no job is in two places and no reply can go astray: in every
    reachable state two workers never hold jobs with the same reply
    channel, a queued job is held by no worker, two queued jobs have
    different reply channels, and two handlers never wait on the same
    channel. *)
Theorem jobs_are_held_once `{GoPlatform} (s : System) :
  reachable s ->
  (forall w1 w2 pc1 pc2 req1 req2,
      w1 <> w2 ->
      workers s !! w1 = Some pc1 -> workers s !! w2 = Some pc2 ->
      jobOf pc1 = Some req1 -> jobOf pc2 = Some req2 ->
      ResponseCh req1 <> ResponseCh req2) /\
  (forall i w queued pc held,
      ocrWorkerPool s !! i = Some queued -> workers s !! w = Some pc ->
      jobOf pc = Some held ->
      ResponseCh queued <> ResponseCh held) /\
  (forall i j req1 req2,
      i <> j ->
      ocrWorkerPool s !! i = Some req1 -> ocrWorkerPool s !! j = Some req2 ->
      ResponseCh req1 <> ResponseCh req2) /\
  (forall h1 h2 f1 f2 c1 c2,
      h1 <> h2 ->
      handlers s !! h1 = Some (HAwait f1 c1) -> handlers s !! h2 = Some (HAwait f2 c2) ->
      c1 <> c2).
Proof.
  intros Hreach. pose proof (reachable_channelInv s Hreach) as Hinv.
  repeat split.
  - intros w1 w2 pc1 pc2 req1 req2 Hne H1 H2 J1 J2 Heq.
    pose proof (workerSends_job pc1 req1 J1) as E1.
    pose proof (workerSends_job pc2 req2 J2) as E2. rewrite Heq in E1.
    destruct (Hinv (ResponseCh req2)) as (Hs & _). unfold senders in Hs.
    pose proof (sum_list_with_two (workerSends (ResponseCh req2)) _ _ _ _ _ Hne H1 H2) as Hle.
    lia.
  - intros i w queued pc held Hq Hw Hjob Heq.
    pose proof (workerSends_job pc held Hjob) as E1.
    assert (E2 : refersTo (ResponseCh held) queued = 1%nat)
      by (unfold refersTo; rewrite Heq; apply ind_eqb_refl).
    destruct (Hinv (ResponseCh held)) as (Hs & _). unfold senders in Hs.
    pose proof (sum_list_with_lookup (workerSends (ResponseCh held)) _ _ _ Hw) as Hle.
    pose proof (sum_list_with_lookup (refersTo (ResponseCh held)) _ _ _ Hq) as Hle2.
    lia.
  - intros i j req1 req2 Hne H1 H2 Heq.
    assert (E1 : refersTo (ResponseCh req1) req1 = 1%nat)
      by (unfold refersTo; apply ind_eqb_refl).
    assert (E2 : refersTo (ResponseCh req1) req2 = 1%nat)
      by (unfold refersTo; rewrite Heq; apply ind_eqb_refl).
    destruct (Hinv (ResponseCh req1)) as (Hs & _). unfold senders in Hs.
    pose proof (sum_list_with_two (refersTo (ResponseCh req1)) _ _ _ _ _ Hne H1 H2) as Hle.
    lia.
  - intros h1 h2 f1 f2 c1 c2 Hne H1 H2 Heq. subst c2.
    destruct (Hinv c1) as (_ & Hr & _). unfold receivers in Hr.
    pose proof (sum_list_with_two (handlerReceives c1) _ _ _ _ _ Hne H1 H2) as Hle.
    cbn [handlerReceives] in Hle. rewrite ind_eqb_refl in Hle. lia.
Qed.

Lemma jobs_are_held_once_witness :
  exists s req1 req2,
    @run unixASCII initial overlapSchedule = Some s /\
    (workers s !! 0%nat) ≫= jobOf = Some req1 /\
    (workers s !! 1%nat) ≫= jobOf = Some req2 /\
    ResponseCh req1 <> ResponseCh req2.
Proof.
  destruct (@run unixASCII initial overlapSchedule) as [s|] eqn:Hrun;
    [|vm_compute in Hrun; discriminate].
  assert (Hreach : @reachable unixASCII s) by (exists overlapSchedule; exact Hrun).
  vm_compute in Hrun. injection Hrun as <-.
  do 3 eexists. split; [reflexivity|]. split; [reflexivity|]. split; [reflexivity|].
  eapply (proj1 (@jobs_are_held_once unixASCII _ Hreach) 0%nat 1%nat);
    [discriminate | reflexivity | reflexivity | reflexivity | reflexivity].
Defined.

(** The steps a worker takes by itself, with where they lead. *)
Lemma worker_begin `{GoPlatform} (s : System) (w : nat) (req : OCRRequest) (nanos : Z) :
  workers s !! w = Some (WStart req) ->
  exists s', step s (Begin w nanos None) = Some s' /\
             workers s' !! w
             = Some (WSelect req (tempFileName nanos (Filename req)) (length (chans s))).
Proof.
  intros Hw. cbn [step makeChan]. rewrite Hw. eexists. split; [reflexivity|].
  cbn [setWorker addEngine workers].
  apply list_lookup_insert_eq. eapply lookup_lt_Some. exact Hw.
Qed.

Lemma worker_deadline `{GoPlatform} (s : System) (w : nat) (req : OCRRequest)
  (tempFile : string) (rc : nat) :
  workers s !! w = Some (WSelect req tempFile rc) ->
  exists s', step s (Deadline w) = Some s' /\
             workers s' !! w = Some (WReply req timeoutResponse).
Proof.
  intros Hw. cbn [step]. rewrite Hw. eexists. split; [reflexivity|].
  cbn [setWorker workers]. apply list_lookup_insert_eq. eapply lookup_lt_Some. exact Hw.
Qed.

Lemma worker_reply `{GoPlatform} (s : System) (w : nat) (req : OCRRequest)
  (result : OCRResponse) :
  reachable s ->
  workers s !! w = Some (WReply req result) ->
  exists s', step s (Reply w) = Some s' /\
             workers s' !! w = Some WIdle /\
             chans s' !! ResponseCh req = Some [result].
Proof.
  intros Hreach Hw. pose proof (reachable_channelInv s Hreach) as Hinv.
  destruct (pending_send_has_room s (ResponseCh req) Hinv
              (worker_reply_is_sender s w req result Hw)) as [Hempty _].
  cbn [step]. rewrite Hw. unfold sendOn. rewrite Hempty. cbn.
  eexists. split; [reflexivity|]. cbn [setWorker setChan workers chans]. split.
  - apply list_lookup_insert_eq. eapply lookup_lt_Some. exact Hw.
  - apply list_lookup_insert_eq. eapply lookup_lt_Some. exact Hempty.
Qed.

(** X21: a worker is never stuck with a job: from every reachable state a
    worker that holds a job can, by at most three steps of its own and
    whatever the other goroutines do or fail to do, put a Result into the
    job's reply channel and be idle again. *)
Theorem worker_always_finishes `{GoPlatform} (s : System) (w : nat) (pc : WorkerPc)
  (req : OCRRequest) :
  reachable s ->
  workers s !! w = Some pc ->
  jobOf pc = Some req ->
  exists schedule s' result,
    run s schedule = Some s' /\
    (length schedule <= 3)%nat /\
    forallb (byWorker w) schedule = true /\
    workers s' !! w = Some WIdle /\
    chans s' !! ResponseCh req = Some [result].
Proof.
  intros Hreach Hw Hjob.
  assert (Hlast : forall s2 result,
             reachable s2 -> workers s2 !! w = Some (WReply req result) ->
             exists s', run s2 [Reply w] = Some s' /\
                        workers s' !! w = Some WIdle /\
                        chans s' !! ResponseCh req = Some [result]).
  { intros s2 result Hr2 Hw2.
    destruct (worker_reply s2 w req result Hr2 Hw2) as (s' & Hstep & Hidle & Hch).
    exists s'. cbn [run]. rewrite Hstep. auto. }
  assert (Hmid : forall s1 tempFile rc,
             reachable s1 -> workers s1 !! w = Some (WSelect req tempFile rc) ->
             exists s', run s1 [Deadline w; Reply w] = Some s' /\
                        workers s' !! w = Some WIdle /\
                        chans s' !! ResponseCh req = Some [timeoutResponse]).
  { intros s1 tempFile rc Hr1 Hw1.
    destruct (worker_deadline s1 w req tempFile rc Hw1) as (s2 & Hstep & Hw2).
    destruct (Hlast s2 timeoutResponse (reachable_step _ _ _ Hr1 Hstep) Hw2)
      as (s' & Hrun & Hidle & Hch).
    exists s'. cbn [run]. rewrite Hstep. auto. }
  destruct pc as [|r0|r0 tempFile rc|r0 result]; simpl in Hjob; try discriminate;
    injection Hjob as ->.
  - destruct (worker_begin s w req 0 Hw) as (s1 & Hstep & Hw1).
    destruct (Hmid s1 _ _ (reachable_step _ _ _ Hreach Hstep) Hw1)
      as (s' & Hrun & Hidle & Hch).
    exists [Begin w 0 None; Deadline w; Reply w], s', timeoutResponse.
    cbn [run] in *. rewrite Hstep. cbn [forallb byWorker length].
    rewrite Nat.eqb_refl. repeat split; auto.
  - destruct (Hmid s _ _ Hreach Hw) as (s' & Hrun & Hidle & Hch).
    exists [Deadline w; Reply w], s', timeoutResponse.
    cbn [forallb byWorker length]. rewrite Nat.eqb_refl. repeat split; auto.
  - destruct (Hlast s result Hreach Hw) as (s' & Hrun & Hidle & Hch).
    exists [Reply w], s', result.
    cbn [forallb byWorker length]. rewrite Nat.eqb_refl. repeat split; auto.
Qed.

Lemma worker_always_finishes_witness :
  exists s schedule s' result,
    @run unixASCII initial overlapSchedule = Some s /\
    @run unixASCII s schedule = Some s' /\
    workers s' !! 1%nat = Some WIdle /\
    chans s' !! 1%nat = Some [result].
Proof.
  destruct (@run unixASCII initial overlapSchedule) as [s|] eqn:Hrun;
    [|vm_compute in Hrun; discriminate].
  assert (Hreach : @reachable unixASCII s) by (exists overlapSchedule; exact Hrun).
  vm_compute in Hrun. injection Hrun as <-.
  destruct (@worker_always_finishes unixASCII _ 1%nat _ _ Hreach eq_refl eq_refl)
    as (schedule & s' & result & Hrun' & _ & _ & Hidle & Hch).
  eexists. exists schedule, s', result. split; [reflexivity|]. auto.
Defined.

(** The steps of an engine goroutine, with where they lead. *)
Lemma engine_rlock `{GoPlatform} (s : System) (e : nat) (tempFile : string) (rc : nat) :
  reachable s ->
  engines s !! e = Some (ERLock tempFile rc) ->
  exists s', step s (EngineRLock e) = Some s' /\
             engines s' !! e = Some (ECalling tempFile rc).
Proof.
  intros Hreach He. destruct (reachable_mutexInv s Hreach) as [_ Hw].
  cbn [step]. rewrite He. unfold RLock. rewrite Hw. eexists. split; [reflexivity|].
  cbn [setEngine setMutex engines]. apply list_lookup_insert_eq.
  eapply lookup_lt_Some. exact He.
Qed.

Lemma engine_return `{GoPlatform} (s : System) (e : nat) (tempFile : string) (rc : nat)
  (answer : string * option string) :
  engines s !! e = Some (ECalling tempFile rc) ->
  exists s', step s (EngineReturn e answer) = Some s' /\
             engines s' !! e = Some (EReturned answer rc).
Proof.
  intros He. cbn [step]. rewrite He. eexists. split; [reflexivity|].
  cbn [setEngine engines]. apply list_lookup_insert_eq. eapply lookup_lt_Some. exact He.
Qed.

Lemma engine_runlock `{GoPlatform} (s : System) (e : nat)
  (answer : string * option string) (rc : nat) :
  reachable s ->
  engines s !! e = Some (EReturned answer rc) ->
  exists s', step s (EngineRUnlock e) = Some s' /\
             engines s' !! e = Some (ESend (engineResult answer) rc).
Proof.
  intros Hreach He. destruct (reachable_mutexInv s Hreach) as [Hcount _].
  cbn [step]. rewrite He. unfold RUnlock.
  pose proof (sum_list_with_lookup holding _ _ _ He) as Hle. cbn [holding] in Hle.
  unfold readLockHolders in Hcount.
  destruct (readerCount (ocrMutex s)) as [|n]; [lia|].
  eexists. split; [reflexivity|].
  cbn [setEngine setMutex engines]. apply list_lookup_insert_eq.
  eapply lookup_lt_Some. exact He.
Qed.

(** X22: an engine goroutine is never left hanging: from every reachable
    state, once the engine call returns (with whatever answer), the
    goroutine can by its own steps alone give back the read lock, put its
    Result into its result channel and exit, whether or not the worker
    that started it is still waiting. *)
Theorem engine_goroutine_always_exits `{GoPlatform} (s : System) (e : nat)
  (pc : EnginePc) (answer : string * option string) :
  reachable s ->
  engines s !! e = Some pc ->
  pc <> EExit ->
  exists schedule s' result rc,
    run s schedule = Some s' /\
    (length schedule <= 4)%nat /\
    forallb (byEngine e) schedule = true /\
    engineSends rc pc = 1%nat /\
    engines s' !! e = Some EExit /\
    chans s' !! rc = Some [result].
Proof.
  intros Hreach He Hlive.
  assert (H4 : forall s3 r rc,
             reachable s3 -> engines s3 !! e = Some (ESend r rc) ->
             exists s', run s3 [EngineSend e] = Some s' /\
                        engines s' !! e = Some EExit /\ chans s' !! rc = Some [r]).
  { intros s3 r rc Hr3 He3.
    destruct (proj2 (proj2 (proj2 (engine_never_blocks s3 e Hr3))) r rc He3)
      as (s' & Hstep & Hch & Hexit).
    exists s'. cbn [run]. rewrite Hstep. auto. }
  assert (H3 : forall s2 ans rc,
             reachable s2 -> engines s2 !! e = Some (EReturned ans rc) ->
             exists s', run s2 [EngineRUnlock e; EngineSend e] = Some s' /\
                        engines s' !! e = Some EExit /\
                        chans s' !! rc = Some [engineResult ans]).
  { intros s2 ans rc Hr2 He2.
    destruct (engine_runlock s2 e ans rc Hr2 He2) as (s3 & Hstep & He3).
    destruct (H4 s3 _ rc (reachable_step _ _ _ Hr2 Hstep) He3) as (s' & Hrun & Hex & Hch).
    exists s'. cbn [run] in *. rewrite Hstep. auto. }
  assert (H2 : forall s1 tempFile rc,
             reachable s1 -> engines s1 !! e = Some (ECalling tempFile rc) ->
             exists s', run s1 [EngineReturn e answer; EngineRUnlock e; EngineSend e]
                        = Some s' /\
                        engines s' !! e = Some EExit /\
                        chans s' !! rc = Some [engineResult answer]).
  { intros s1 tempFile rc Hr1 He1.
    destruct (engine_return s1 e tempFile rc answer He1) as (s2 & Hstep & He2).
    destruct (H3 s2 _ rc (reachable_step _ _ _ Hr1 Hstep) He2) as (s' & Hrun & Hex & Hch).
    exists s'. cbn [run] in *. rewrite Hstep. auto. }
  destruct pc as [tempFile rc|tempFile rc|ans rc|r rc|]; [| | | |contradiction].
  - destruct (engine_rlock s e tempFile rc Hreach He) as (s1 & Hstep & He1).
    destruct (H2 s1 _ rc (reachable_step _ _ _ Hreach Hstep) He1) as (s' & Hrun & Hex & Hch).
    exists [EngineRLock e; EngineReturn e answer; EngineRUnlock e; EngineSend e], s',
      (engineResult answer), rc.
    cbn [run] in *. rewrite Hstep. cbn [forallb byEngine length engineSends].
    rewrite Nat.eqb_refl, ind_eqb_refl. repeat split; auto.
  - destruct (H2 s _ rc Hreach He) as (s' & Hrun & Hex & Hch).
    exists [EngineReturn e answer; EngineRUnlock e; EngineSend e], s',
      (engineResult answer), rc.
    cbn [forallb byEngine length engineSends].
    rewrite Nat.eqb_refl, ind_eqb_refl. repeat split; auto.
  - destruct (H3 s _ rc Hreach He) as (s' & Hrun & Hex & Hch).
    exists [EngineRUnlock e; EngineSend e], s', (engineResult ans), rc.
    cbn [forallb byEngine length engineSends].
    rewrite Nat.eqb_refl, ind_eqb_refl. repeat split; auto.
  - destruct (H4 s _ rc Hreach He) as (s' & Hrun & Hex & Hch).
    exists [EngineSend e], s', r, rc.
    cbn [forallb byEngine length engineSends].
    rewrite Nat.eqb_refl, ind_eqb_refl. repeat split; auto.
Qed.

Lemma engine_goroutine_always_exits_witness :
  exists s schedule s',
    @run unixASCII initial (abandonedSchedule ++ [Reply 0])%list = Some s /\
    workers s !! 0%nat = Some WIdle /\
    @run unixASCII s schedule = Some s' /\
    engines s' !! 0%nat = Some EExit.
Proof.
  destruct (@run unixASCII initial (abandonedSchedule ++ [Reply 0])%list) as [s|] eqn:Hrun;
    [|vm_compute in Hrun; discriminate].
  assert (Hreach : @reachable unixASCII s) by (eexists; exact Hrun).
  vm_compute in Hrun. injection Hrun as <-.
  destruct (@engine_goroutine_always_exits unixASCII _ 0%nat _ ("late", None) Hreach
              eq_refl)
    as (schedule & s' & result & rc & Hrun' & _ & _ & _ & Hexit & _); [discriminate|].
  eexists. exists schedule, s'. split; [reflexivity|]. split; [reflexivity|]. auto.
Defined.

Ltac fields :=
  cbn [setHandler setWorker setEngine setMutex setPool setChan addHandler addEngine
       makeChan fst snd ocrMutex ocrWorkerPool chans handlers workers engines chanLog
       ResponseCh Filename ImageBytes].

(** One more engine call in flight, with worker 0 idle again. *)
Lemma leak_round_adds_a_call `{GoPlatform} (s : System) :
  reachable s ->
  workers s !! 0%nat = Some WIdle ->
  ocrWorkerPool s = [] ->
  exists s',
    run s (leakRound (length (handlers s)) (length (engines s))) = Some s' /\
    workers s' !! 0%nat = Some WIdle /\
    ocrWorkerPool s' = [] /\
    inFlight s' = S (inFlight s).
Proof.
  intros Hreach Hw Hq.
  destruct (reachable_mutexInv s Hreach) as [_ Hwr].
  pose proof (lookup_lt_Some _ _ _ Hw) as Hlen.
  set (req := {| ImageBytes := []; Filename := "a.png"; ResponseCh := length (chans s) |}).
  set (tf := tempFileName 0 "a.png").
  set (rc := S (length (chans s))).
  set (s1 := addHandler (HAdmit req) (snd (makeChan s))).
  set (s2 := setHandler (length (handlers s)) (HAwait "a.png" (length (chans s)))
               (setPool [req] s1)).
  set (s3 := setWorker 0 (WStart req) (setPool [] s2)).
  set (s4 := setWorker 0 (WSelect req tf rc) (addEngine (ERLock tf rc) (snd (makeChan s3)))).
  set (s5 := setEngine (length (engines s)) (ECalling tf rc)
               (setMutex {| readerCount := S (readerCount (ocrMutex s));
                            writerHeld := false |} s4)).
  set (s6 := setWorker 0 (WReply req timeoutResponse) s5).
  set (s7 := setWorker 0 WIdle
               (setChan (length (chans s)) [timeoutResponse]
                  (Sent (length (chans s)) timeoutResponse) s6)).
  assert (E1 : step s (Arrive "a.png" []) = Some s1) by reflexivity.
  assert (E2 : step s1 (Admit (length (handlers s))) = Some s2).
  { cbn [step]. subst s1. fields.
    rewrite lookup_app_r by lia. rewrite Nat.sub_diag. cbn [lookup list_lookup].
    rewrite Hq. reflexivity. }
  assert (E3 : step s2 (Dequeue 0) = Some s3).
  { cbn [step]. subst s2 s1. fields. rewrite Hw. reflexivity. }
  assert (E4 : step s3 (Begin 0 0 None) = Some s4).
  { cbn [step]. subst s3 s2 s1. fields.
    rewrite list_lookup_insert_eq by exact Hlen.
    subst s4 rc tf req. fields. rewrite length_app. cbn [length].
    rewrite Nat.add_1_r. reflexivity. }
  assert (E5 : step s4 (EngineRLock (length (engines s))) = Some s5).
  { cbn [step]. subst s4 s3 s2 s1. fields.
    rewrite lookup_app_r by lia. rewrite Nat.sub_diag. cbn [lookup list_lookup].
    unfold RLock. rewrite Hwr. reflexivity. }
  assert (E6 : step s5 (Deadline 0) = Some s6).
  { cbn [step]. subst s5 s4 s3 s2 s1. fields.
    rewrite list_lookup_insert_eq by (rewrite length_insert; exact Hlen). reflexivity. }
  assert (E7 : step s6 (Reply 0) = Some s7).
  { cbn [step]. subst s7 s6 s5 s4 s3 s2 s1 req. fields.
    rewrite list_lookup_insert_eq by (rewrite !length_insert; exact Hlen).
    unfold sendOn. fields.
    rewrite lookup_app_l by (rewrite length_app; cbn [length]; lia).
    rewrite lookup_app_r by lia. rewrite Nat.sub_diag. cbn [lookup list_lookup].
    reflexivity. }
  exists s7. unfold leakRound. cbn [run].
  rewrite E1, E2, E3, E4, E5, E6, E7.
  split; [reflexivity|].
  subst s7 s6 s5 s4 s3 s2 s1. fields.
  split; [apply list_lookup_insert_eq; rewrite !length_insert; exact Hlen|].
  split; [reflexivity|].
  unfold inFlight. fields.
  rewrite insert_app_r_alt by lia. rewrite Nat.sub_diag.
  rewrite sum_list_with_app. cbn. lia.
Qed.

(** X23: engine calls pile up without bound: since a worker that runs into
    its deadline goes back to the queue while its engine call is still
    executing, for every number [n] there is a reachable state with [n]
    engine calls in flight, although there are only three workers. *)
Theorem engine_calls_pile_up `{GoPlatform} (n : nat) :
  exists s, reachable s /\ inFlight s = n /\ length (workers s) = 3%nat /\
            workers s !! 0%nat = Some WIdle /\ ocrWorkerPool s = [].
Proof.
  induction n as [|n (s & Hreach & Hn & Hlen & Hw & Hq)].
  - exists initial. split; [exists []; reflexivity|]. repeat split.
  - destruct (leak_round_adds_a_call s Hreach Hw Hq) as (s' & Hrun & Hw' & Hq' & Hin).
    assert (Hreach' : reachable s') by (eapply reachable_run; eassumption).
    exists s'. split; [exact Hreach'|]. split; [congruence|].
    split; [|split; assumption].
    clear - Hrun Hlen. unfold leakRound in Hrun.
    assert (Hkeep : forall sched s0 s1, run s0 sched = Some s1 ->
                                        length (workers s1) = length (workers s0)).
    { induction sched as [|a sched IH]; intros s0 s1 Hr; simpl in Hr.
      - injection Hr as <-. reflexivity.
      - destruct (step s0 a) as [s2|] eqn:Hstep; [|discriminate].
        rewrite (IH s2 s1 Hr). clear - Hstep.
        step_cases Hstep; rewrite ?length_insert; reflexivity. }
    rewrite (Hkeep _ _ _ Hrun). exact Hlen.
Qed.
